(** * Deep Socket.IO streaming server: the event pipeline of
      [langgraph/examples/deep_streaming_server.py]

    The development embeds the three graph nodes, the mock database, the
    workflow and the [chat] handler, and proves the ordering, attribution and
    termination properties of the event sequence a client receives.

    Conventions.
    - A Python [str] is a [string]; one [ascii] stands for one character, so
      that [s[:500]] is [substring 0 500 s].  No proof depends on the alphabet.
    - A Python [dict] is an association list in insertion order with unique
      keys, as [dict] keeps them.
    - An [async for] over the graph's events is a finite [stream] that ends
      normally or by raising; a handler that emits is a writer over the list
      of emitted events combined with an exception result.
    - The source drives the graph through the langgraph library and the
      model through langchain.  Both are outside the source; their part is
      modelled from the specification and marked as such. *)

From Stdlib Require Import List String Ascii Bool Arith ZArith Lia DecimalString.
Import ListNotations.
Open Scope string_scope.
Open Scope list_scope.

(** ** Python values and exceptions *)

Set Warnings "-register-all".

Inductive value : Type :=
| VNone
| VBool (b : bool)
| VInt (z : Z)
| VStr (s : string)
| VList (items : list value)
| VDict (entries : list (string * value)).

Definition dict : Type := list (string * value).

(** [d.get(k)] *)
Fixpoint dict_get (d : dict) (k : string) : option value :=
  match d with
  | [] => None
  | (k', v) :: rest => if k' =? k then Some v else dict_get rest k
  end.

(** [k in d] *)
Definition dict_has (d : dict) (k : string) : bool :=
  match dict_get d k with Some _ => true | None => false end.

(** [d[k] = v]: an existing key keeps its position. *)
Fixpoint dict_set (d : dict) (k : string) (v : value) : dict :=
  match d with
  | [] => [(k, v)]
  | (k', v') :: rest =>
      if k' =? k then (k', v) :: rest else (k', v') :: dict_set rest k v
  end.

(** [{**d, **upd}]: the entries of [upd] are written over [d] in order. *)
Definition dict_update (d upd : dict) : dict :=
  fold_left (fun acc kv => dict_set acc (fst kv) (snd kv)) upd d.

Inductive exception : Type :=
| Exception (description : string)            (* raised by a collaborator *)
| KeyError (key : string)                     (* [d[k]] on a missing key *)
| TypeError (operation : string) (operand : value).

Inductive result (A : Type) : Type :=
| Ok (a : A)
| Raise (e : exception).
Arguments Ok {A} a.
Arguments Raise {A} e.

(** What the interpreter prints: [repr] of a value and the text of a
    [TypeError].  Both depend on the interpreter, not on this program. *)
Class Interpreter : Type := {
  py_repr : value -> string;
  type_error_text : string -> value -> string
}.

Section Builtins.
Context {py : Interpreter}.

(** [str(v)]: a string is itself, every other value is its [repr]. *)
Definition py_str (v : value) : string :=
  match v with
  | VStr s => s
  | _ => py_repr v
  end.

(** [str(e)] *)
Definition exc_str (e : exception) : string :=
  match e with
  | Exception description => description
  | KeyError key => py_repr (VStr key)
  | TypeError operation operand => type_error_text operation operand
  end.

End Builtins.

(** [bool(s)] of a string *)
Definition truthy (s : string) : bool :=
  match s with
  | EmptyString => false
  | String _ _ => true
  end.

(** [s[:n]] *)
Definition slice_to (n : nat) (s : string) : string := substring 0 n s.

(** [needle in container] for a string needle *)
Definition py_contains (needle : string) (container : value) : result bool :=
  match container with
  | VDict d => Ok (dict_has d needle)
  | VStr s => Ok (match index 0 needle s with Some _ => true | None => false end)
  | VList items =>
      Ok (existsb (fun v => match v with VStr s => s =? needle | _ => false end)
                  items)
  | _ => Raise (TypeError "in" container)
  end.

(** [container[key]] for a string key *)
Definition py_getitem (container : value) (key : string) : result value :=
  match container with
  | VDict d =>
      match dict_get d key with
      | Some v => Ok v
      | None => Raise (KeyError key)
      end
  | _ => Raise (TypeError "getitem" container)
  end.

(** ** Emitting code: a writer over the emitted events with exceptions *)

Definition emitting (E A : Type) : Type := (list E * result A)%type.

Definition ret {E A : Type} (a : A) : emitting E A := ([], Ok a).

Definition bind {E A B : Type} (m : emitting E A) (f : A -> emitting E B)
  : emitting E B :=
  match m with
  | (out, Ok a) => let (out', r) := f a in (out ++ out', r)
  | (out, Raise e) => (out, Raise e)
  end.

Definition emit {E : Type} (e : E) : emitting E unit := ([e], Ok tt).

Definition lift {E A : Type} (r : result A) : emitting E A := ([], r).

Notation "x <- m ;; k" := (bind m (fun x => k))
  (at level 61, m at next level, right associativity).
Notation "m ;;; k" := (bind m (fun _ => k))
  (at level 61, right associativity).

(** ** Internal events: what [graph.astream_events(..., version="v2")] yields *)

Record AIMessageChunk : Type := { content : string }.

Record EventData : Type := {
  input : option value;
  output : option value;
  chunk : option AIMessageChunk
}.

Record StreamEvent : Type := {
  event : string;
  name : option string;
  data : option EventData
}.

(** The asynchronous generator: exhausted, raising, or yielding one more. *)
Inductive stream : Type :=
| Stop
| Throw (e : exception)
| Yield (ev : StreamEvent) (rest : stream).

Fixpoint yield_all (evs : list StreamEvent) (rest : stream) : stream :=
  match evs with
  | [] => rest
  | ev :: evs' => Yield ev (yield_all evs' rest)
  end.

(** ** External events: [sio.emit(name, payload, to=sid)] *)

Inductive emission : Type :=
| connected (sid : string)
| node_start (node : string)
| node_end (node : string) (summary : string)
| db_save (record : value)
| token (node : option string) (text : string)
| done (success : bool)
| error (message : string).

(** ** The [chat] handler *)

Definition NODE_NAMES : list string := ["analyzer"; "generator"; "saver"].

Definition in_NODE_NAMES (n : string) : bool := existsb (String.eqb n) NODE_NAMES.

(** [event.get("name", default)], the default being the empty string *)
Definition get_name (ev : StreamEvent) : string :=
  match name ev with Some n => n | None => EmptyString end.

(** [event.get("data", {}).get("output", {})] *)
Definition get_output (ev : StreamEvent) : value :=
  match data ev with
  | Some d => match output d with Some v => v | None => VDict [] end
  | None => VDict []
  end.

(** [event.get("data", {}).get("chunk")] *)
Definition get_chunk (ev : StreamEvent) : option AIMessageChunk :=
  match data ev with
  | Some d => chunk d
  | None => None
  end.

Section Chat.
Context {py : Interpreter}.

(** One iteration of the [async for] body; the state is [current_node]. *)
Definition on_event (current_node : option string) (ev : StreamEvent)
  : emitting emission (option string) :=
  let kind := event ev in
  if kind =? "on_chain_start" then
    let node_name := get_name ev in
    if in_NODE_NAMES node_name then
      emit (node_start node_name) ;;;
      ret (Some node_name)
    else ret current_node
  else if kind =? "on_chain_end" then
    let node_name := get_name ev in
    if in_NODE_NAMES node_name then
      let out := get_output ev in
      emit (node_end node_name (slice_to 500 (py_str out))) ;;;
      if node_name =? "saver" then
        has <- lift (py_contains "saved_record" out) ;;
        if has then
          saved <- lift (py_getitem out "saved_record") ;;
          _id <- lift (py_getitem saved "id") ;;       (* printed *)
          emit (db_save saved) ;;;
          ret current_node
        else ret current_node
      else ret current_node
    else ret current_node
  else if kind =? "on_chat_model_stream" then
    match get_chunk ev with
    | Some c =>
        if truthy (content c) then
          emit (token current_node (content c)) ;;;
          ret current_node
        else ret current_node
    | None => ret current_node
    end
  else ret current_node.

(** The [async for] loop inside [try]. *)
Fixpoint chat_loop (current_node : option string) (s : stream)
  : emitting emission unit :=
  match s with
  | Stop => ret tt
  | Throw e => lift (Raise e)
  | Yield ev rest =>
      current_node' <- on_event current_node ev ;;
      chat_loop current_node' rest
  end.

(** [try: ... emit("done") except Exception as e: emit("error")], run on the
    events [s] of the graph; [current_node] starts as [None]. *)
Definition chat_body (s : stream) : list emission :=
  match chat_loop None s with
  | (out, Ok _) => out ++ [done true]
  | (out, Raise e) => out ++ [error (exc_str e)]
  end.

End Chat.

(** ** Mock database *)

Record MockDatabase : Type := { records : list dict }.

(** [MockDatabase.save]: [uuid] is [str(uuid.uuid4())] and [now] is
    [datetime.now().isoformat()], both drawn during the call; the record is
    [{"id": uuid, "created_at": now, **data}]. *)
Definition save (uuid now : string) (db : MockDatabase) (data : dict)
  : dict * MockDatabase :=
  let record := dict_update [("id", VStr uuid); ("created_at", VStr now)] data in
  (record, {| records := records db ++ [record] |}).

Definition get_all (db : MockDatabase) : list dict := records db.


(** ** Collaborators of one run *)

(** Modelled from the spec: the text-generation collaborator, which the
    source reaches through [llm.ainvoke] of the langchain library.  By
    sections 1 and 6 a call produces a sequence of text fragments for a
    prompt and then terminates normally or with an error. *)
Inductive llm_outcome : Type :=
| Completed (fragments : list string)
| Failed (fragments : list string) (e : exception).

Record World : Type := {
  ainvoke : string -> llm_outcome;     (* the model, by prompt *)
  uuid4 : string;                      (* drawn by the run's [save] *)
  now_isoformat : string;              (* read by the run's [save] *)
  exit_carries_state : bool            (* see [run_from] *)
}.

(** Modelled from the spec: the events that surface around a model call;
    [chat] reads their [event] and [data.chunk] only. *)
Definition model_event (kind : string) (c : option AIMessageChunk) : StreamEvent :=
  {| event := kind;
     name := Some "ChatOllama";
     data := Some {| input := None; output := None; chunk := c |} |}.

Definition fragment_event (fragment : string) : StreamEvent :=
  model_event "on_chat_model_stream" (Some {| content := fragment |}).

(** Modelled from the spec: [await llm.ainvoke(prompt)] while the events of
    the graph are streamed.  Each fragment surfaces as one
    [on_chat_model_stream] event between the start and end events of the
    call, and the content of the response is the fragments put together. *)
Definition llm_ainvoke (w : World) (prompt : string)
  : emitting StreamEvent string :=
  match ainvoke w prompt with
  | Completed fragments =>
      (model_event "on_chat_model_start" None
         :: map fragment_event fragments
         ++ [model_event "on_chat_model_end" None],
       Ok (String.concat EmptyString fragments))
  | Failed fragments e =>
      (model_event "on_chat_model_start" None :: map fragment_event fragments,
       Raise e)
  end.

(** ** Graph state and nodes *)

Section Nodes.
Context {py : Interpreter}.

(** [state[k]] *)
Definition state_get (state : dict) (k : string) : result value :=
  py_getitem (VDict state) k.

Definition analyzer_prompt (user_input : value) : string :=
  ("다음 입력을 분석해주세요.
- 주요 의도
- 핵심 키워드
- 감정 톤

입력: " ++ py_str user_input ++ "

간단히 분석해주세요.")%string.

Definition analyzer_node (w : World) (state : dict)
  : emitting StreamEvent dict :=
  user_input <- lift (state_get state "user_input") ;;
  response <- llm_ainvoke w (analyzer_prompt user_input) ;;
  ret [("analysis", VStr response)].

Definition generator_prompt (user_input analysis : value) : string :=
  ("분석 결과를 바탕으로 응답을 생성해주세요.

원본 입력: " ++ py_str user_input ++ "

분석 결과:
" ++ py_str analysis ++ "

친절하고 도움이 되는 응답을 작성해주세요.")%string.

Definition generator_node (w : World) (state : dict)
  : emitting StreamEvent dict :=
  user_input <- lift (state_get state "user_input") ;;
  analysis <- lift (state_get state "analysis") ;;
  response <- llm_ainvoke w (generator_prompt user_input analysis) ;;
  ret [("response", VStr response)].

Definition saver_node (w : World) (db : MockDatabase) (state : dict)
  : emitting StreamEvent (dict * MockDatabase) :=
  user_input <- lift (state_get state "user_input") ;;
  analysis <- lift (state_get state "analysis") ;;
  response <- lift (state_get state "response") ;;
  let (record, db') :=
    save (uuid4 w) (now_isoformat w) db
         [("user_input", user_input);
          ("analysis", analysis);
          ("response", response)] in
  ret ([("saved_record", VDict record)], db').

(** ** The workflow *)

Definition START : string := "__start__".
Definition END : string := "__end__".

Definition node_fn : Type :=
  World -> MockDatabase -> dict -> emitting StreamEvent (dict * MockDatabase).

Record StateGraph : Type := {
  nodes : list (string * node_fn);
  edges : list (string * string)
}.

Definition workflow : StateGraph := {|
  nodes :=
    [("analyzer",
      fun w db state => update <- analyzer_node w state ;; ret (update, db));
     ("generator",
      fun w db state => update <- generator_node w state ;; ret (update, db));
     ("saver", saver_node)];
  edges :=
    [(START, "analyzer");
     ("analyzer", "generator");
     ("generator", "saver");
     ("saver", END)]
|}.

Definition node_of (g : StateGraph) (n : string) : option node_fn :=
  option_map snd (find (fun entry => fst entry =? n) (nodes g)).

Definition successor (g : StateGraph) (n : string) : option string :=
  option_map snd (find (fun edge => fst edge =? n) (edges g)).

(** ** The executor *)

(** Modelled from the spec: a boundary event of the stage or graph [node],
    with the state it received and, on exit, its output. *)
Definition chain_event (kind node : string) (inp : dict) (out : option value)
  : StreamEvent :=
  {| event := kind;
     name := Some node;
     data := Some {| input := Some (VDict inp); output := out; chunk := None |} |}.

(** Modelled from the spec: the library ends a walk after this many stages. *)
Definition recursion_limit : nat := 25.

(** Modelled from the spec: what the exit event of a stage carries as
    [data.output], see [run_from]. *)
Definition exit_payload (w : World) (state update : dict) : value :=
  VDict (if exit_carries_state w then dict_update state update else update).

(** Modelled from the spec: the executor behind [graph.astream_events], which
    belongs to the langgraph library and is not part of the source.  Following
    section 4.1, the stages run strictly one after the other along the edges
    of the workflow: entering a stage yields [on_chain_start] with its name,
    the events of its model call surface while it runs, its return value is
    merged into the state and [on_chain_end] is yielded (both boundary events
    carry the state the stage received as [data.input]); a stage that raises
    ends the sequence with that exception, without retry.  Section 4.1 lets
    the exit event carry the merged state, the library's events carry the
    stage's own return value: [exit_carries_state] selects between the two
    ([exit_payload]) and every theorem below holds for both.  The library
    wraps the run in events named [LangGraph] and stops a walk after
    [recursion_limit] stages. *)
Fixpoint run_from (fuel : nat) (g : StateGraph) (w : World)
    (db : MockDatabase) (state : dict) (n : string) : stream :=
  match fuel with
  | O => Throw (Exception "Recursion limit reached")
  | S fuel' =>
      if n =? END then
        Yield (chain_event "on_chain_end" "LangGraph" state (Some (VDict state)))
              Stop
      else
        match node_of g n with
        | None => Throw (KeyError n)
        | Some fn =>
            Yield (chain_event "on_chain_start" n state None)
              (let (surfaced, returned) := fn w db state in
               yield_all surfaced
                 (match returned with
                  | Raise e => Throw e
                  | Ok (update, db') =>
                      let state' := dict_update state update in
                      Yield (chain_event "on_chain_end" n state
                               (Some (exit_payload w state update)))
                        (match successor g n with
                         | Some n' => run_from fuel' g w db' state' n'
                         | None => Stop
                         end)
                  end))
        end
  end.

(** Modelled from the spec: [graph.astream_events(input, version="v2")] for
    the compiled workflow, see [run_from]. *)
Definition astream_events (w : World) (db : MockDatabase) (inputs : dict)
  : stream :=
  Yield (chain_event "on_chain_start" "LangGraph" inputs None)
    (match successor workflow START with
     | Some n => run_from recursion_limit workflow w db inputs n
     | None => Stop
     end).

(** [data.get("message", default)], the default being the empty string *)
Definition message_of (data : dict) : value :=
  match dict_get data "message" with
  | Some v => v
  | None => VStr EmptyString
  end.

(** The walk of [run_from] in which every stage returns. *)
Fixpoint completes (fuel : nat) (g : StateGraph) (w : World)
    (db : MockDatabase) (state : dict) (n : string) : Prop :=
  match fuel with
  | O => False
  | S fuel' =>
      if n =? END then True
      else
        match node_of g n with
        | None => False
        | Some fn =>
            match snd (fn w db state) with
            | Raise _ => False
            | Ok (update, db') =>
                match successor g n with
                | Some n' =>
                    completes fuel' g w db' (dict_update state update) n'
                | None => True
                end
            end
        end
  end.

(** The walk of [run_from] in which [stage] is reached and raises [e]. *)
Fixpoint stage_raises (fuel : nat) (g : StateGraph) (w : World)
    (db : MockDatabase) (state : dict) (n : string)
    (stage : string) (e : exception) : Prop :=
  match fuel with
  | O => False
  | S fuel' =>
      match node_of g n with
      | None => False
      | Some fn =>
          match snd (fn w db state) with
          | Raise e' => n = stage /\ e' = e
          | Ok (update, db') =>
              match successor g n with
              | Some n' =>
                  stage_raises fuel' g w db' (dict_update state update) n'
                               stage e
              | None => False
              end
          end
      end
  end.

(** The stages that follow [n] along the edges. *)
Fixpoint downstream (fuel : nat) (g : StateGraph) (n : string) : list string :=
  match fuel with
  | O => []
  | S fuel' =>
      match successor g n with
      | Some n' => if n' =? END then [] else n' :: downstream fuel' g n'
      | None => []
      end
  end.

(** [{"user_input": user_input}] *)
Definition initial_state (data : dict) : dict :=
  [("user_input", message_of data)].

(** What [chat(sid, data)] emits, in order; every emission goes [to=sid]. *)
Definition chat_events (w : World) (db : MockDatabase) (data : dict)
  : list emission :=
  chat_body (astream_events w db (initial_state data)).

Definition chat (w : World) (db : MockDatabase) (sid : string) (data : dict)
  : list (string * emission) :=
  map (fun e => (sid, e)) (chat_events w db data).

End Nodes.

(** ** The server: handlers running side by side

    The Socket.IO server starts one [chat] handler per incoming message and
    lets the handlers take turns at their suspension points.  A handler is
    either inside its loop, with its own [current_node] and the events its
    graph has yet to yield, or it has returned.  A turn processes one event of
    the graph (or the end of the sequence); what the handler emits in that
    turn is delivered [to] its own [sid]. *)

Inductive handler : Type :=
| Running (current_node : option string) (pending : stream)
| Returned.

Record task : Type := { task_sid : string; task_state : handler }.

Record delivery : Type := {
  run : option nat;        (* the handler that emitted, [None] for [connect] *)
  to : string;
  payload : emission
}.

Record server : Type := { tasks : list task; outbox : list delivery }.

Definition idle : server := {| tasks := []; outbox := [] |}.

Inductive action : Type :=
| Connect (sid : string)
| Disconnect (sid : string)
| Chat (sid : string) (graph_events : stream)
| Advance (i : nat).

Definition is_running (h : handler) : bool :=
  match h with Running _ _ => true | Returned => false end.

Definition has_active_run (srv : server) (sid : string) : bool :=
  existsb (fun t => (task_sid t =? sid) && is_running (task_state t)) (tasks srv).

Fixpoint update_nth {A : Type} (i : nat) (x : A) (l : list A) : list A :=
  match l, i with
  | [], _ => []
  | _ :: l', O => x :: l'
  | y :: l', S i' => y :: update_nth i' x l'
  end.

Definition run_is (i : nat) (d : delivery) : bool :=
  match run d with Some j => Nat.eqb j i | None => false end.

(** The events handler [i] has emitted so far, in order. *)
Definition events_of_run (i : nat) (srv : server) : list emission :=
  map payload (filter (run_is i) (outbox srv)).

Fixpoint stream_length (s : stream) : nat :=
  match s with
  | Yield _ rest => S (stream_length rest)
  | _ => O
  end.

(** The events a stream yields before it ends. *)
Fixpoint yielded (s : stream) : list StreamEvent :=
  match s with
  | Yield ev rest => ev :: yielded rest
  | _ => []
  end.

Section Server.
Context {py : Interpreter}.

(** One turn of a handler. *)
Definition advance (h : handler) : list emission * handler :=
  match h with
  | Returned => ([], Returned)
  | Running _ Stop => ([done true], Returned)
  | Running _ (Throw e) => ([error (exc_str e)], Returned)
  | Running current_node (Yield ev rest) =>
      match on_event current_node ev with
      | (out, Ok current_node') => (out, Running current_node' rest)
      | (out, Raise e) => (out ++ [error (exc_str e)], Returned)
      end
  end.

(** What a handler emits in its next [k] turns. *)
Fixpoint emitted_in (k : nat) (h : handler) : list emission :=
  match k with
  | O => []
  | S k' => let (out, h') := advance h in out ++ emitted_in k' h'
  end.

(** [connect] greets the client; [disconnect] only logs; [chat] starts a
    handler for the message, whatever the session is doing. *)
Definition react (srv : server) (a : action) : server :=
  match a with
  | Connect sid =>
      {| tasks := tasks srv;
         outbox := outbox srv
                   ++ [{| run := None; to := sid; payload := connected sid |}] |}
  | Disconnect _ => srv
  | Chat sid graph_events =>
      {| tasks := tasks srv
                  ++ [{| task_sid := sid;
                         task_state := Running None graph_events |}];
         outbox := outbox srv |}
  | Advance i =>
      match nth_error (tasks srv) i with
      | None => srv
      | Some t =>
          let (out, h') := advance (task_state t) in
          {| tasks := update_nth i {| task_sid := task_sid t;
                                      task_state := h' |} (tasks srv);
             outbox := outbox srv
                       ++ map (fun e => {| run := Some i;
                                           to := task_sid t;
                                           payload := e |}) out |}
      end
  end.

Definition run_actions (acts : list action) (srv : server) : server :=
  fold_left react acts srv.

End Server.

(** Turns given to handler [i] in a list of actions. *)
Definition turns_of (i : nat) (acts : list action) : nat :=
  List.length
    (filter (fun a => match a with Advance j => Nat.eqb j i | _ => false end)
            acts).

(** ** Reading an emitted sequence *)

Definition terminal (e : emission) : bool :=
  match e with
  | done _ | error _ => true
  | _ => false
  end.


(** Stages entered and not yet exited. *)
Definition track (open : list string) (e : emission) : list string :=
  match e with
  | node_start n => n :: open
  | node_end n _ => remove string_dec n open
  | _ => open
  end.

Definition open_stages (emitted : list emission) : list string :=
  fold_left track emitted [].

(** The [token] events of the fragments of one stage. *)
Definition tokens_of (stage : string) (fragments : list string)
  : list emission :=
  map (token (Some stage)) (filter truthy fragments).

Definition is_db_save (e : emission) : bool :=
  match e with db_save _ => true | _ => false end.

Definition is_node_start (stage : string) (e : emission) : bool :=
  match e with node_start n => n =? stage | _ => false end.

(** Every [token] names the one stage that is open when it is emitted. *)
Fixpoint well_attributed (open : list string) (l : list emission) : bool :=
  match l with
  | [] => true
  | e :: l' =>
      match e with
      | token n _ =>
          match n, open with
          | Some stage, [stage'] => stage =? stage'
          | _, _ => false
          end
      | _ => true
      end
      && well_attributed (track open e) l'
  end.

(** Every [db_save] comes directly after a [node_end] of the saver;
    [prev] is the event emitted last. *)
Fixpoint saves_follow_exit (prev : option emission) (l : list emission) : bool :=
  match l with
  | [] => true
  | e :: l' =>
      match e, prev with
      | db_save _, Some (node_end n _) => n =? "saver"
      | db_save _, _ => false
      | _, _ => true
      end
      && saves_follow_exit (Some e) l'
  end.

(** The record the saver stores for a run. *)
Definition stored_record (w : World) (user_input analysis response : value)
  : dict :=
  [("id", VStr (uuid4 w));
   ("created_at", VStr (now_isoformat w));
   ("user_input", user_input);
   ("analysis", analysis);
   ("response", response)].

(** ** Sample interpreter and collaborators *)

Definition sample_py : Interpreter :=
  {| py_repr := fun _ => "{...}";
     type_error_text := fun _ _ => "unsupported operand" |}.

(** The model answers the analysis prompt in two fragments and an empty
    closing one, and the generation prompt in one. *)
Definition sample_world : World :=
  {| ainvoke := fun prompt =>
       if prefix "분석" prompt then Completed ["ok"]
       else Completed ["hi "; "there"; EmptyString];
     uuid4 := "3f2b8c1e-0000-4000-8000-000000000001";
     now_isoformat := "2025-01-01T09:00:00.000000";
     exit_carries_state := false |}.

(** The model fails on the generation prompt after one fragment. *)
Definition failing_world : World :=
  {| ainvoke := fun prompt =>
       if prefix "분석" prompt
       then Failed ["partial"] (Exception "connection refused")
       else Completed ["hi "; "there"];
     uuid4 := "3f2b8c1e-0000-4000-8000-000000000002";
     now_isoformat := "2025-01-01T09:00:01.000000";
     exit_carries_state := true |}.

Definition empty_db : MockDatabase := {| records := [] |}.

Definition hello : dict := [("message", VStr "hello")].

(** A session [c1] whose first message is being handled when a second one
    arrives. *)
Definition first_events : stream :=
  @astream_events sample_py sample_world empty_db (initial_state hello).

Definition second_events : stream :=
  @astream_events sample_py failing_world empty_db (initial_state hello).

Definition busy : server := @react sample_py idle (Chat "c1" first_events).

Section Iteration.
Context {py : Interpreter}.

(** What one iteration can emit and how it leaves [current_node]. *)
Inductive iteration (cur : option string) (ev : StreamEvent)
  : emitting emission (option string) -> Prop :=
| it_skip : iteration cur ev ([], Ok cur)
| it_start n :
    event ev = "on_chain_start" -> get_name ev = n -> in_NODE_NAMES n = true ->
    iteration cur ev ([node_start n], Ok (Some n))
| it_end n :
    event ev = "on_chain_end" -> get_name ev = n -> in_NODE_NAMES n = true ->
    iteration cur ev
      ([node_end n (slice_to 500 (py_str (get_output ev)))], Ok cur)
| it_end_raise e :
    event ev = "on_chain_end" -> get_name ev = "saver" ->
    iteration cur ev
      ([node_end "saver" (slice_to 500 (py_str (get_output ev)))], Raise e)
| it_save saved id :
    event ev = "on_chain_end" -> get_name ev = "saver" ->
    py_contains "saved_record" (get_output ev) = Ok true ->
    py_getitem (get_output ev) "saved_record" = Ok saved ->
    py_getitem saved "id" = Ok id ->
    iteration cur ev
      ([node_end "saver" (slice_to 500 (py_str (get_output ev))); db_save saved],
       Ok cur)
| it_token c :
    event ev = "on_chat_model_stream" -> get_chunk ev = Some c ->
    truthy (content c) = true ->
    iteration cur ev ([token cur (content c)], Ok cur).

End Iteration.

Section Shapes.
Context {py : Interpreter}.

(** The run in which every stage returns, and the one in which [stage] is
    reached and raises [e]. *)
Definition run_completes (w : World) (db : MockDatabase) (data : dict) : Prop :=
  match successor workflow START with
  | Some n => completes recursion_limit workflow w db (initial_state data) n
  | None => False
  end.

Definition run_fails_at (w : World) (db : MockDatabase) (data : dict)
    (stage : string) (e : exception) : Prop :=
  match successor workflow START with
  | Some n =>
      stage_raises recursion_limit workflow w db (initial_state data) n stage e
  | None => False
  end.

(** The three ways a run can go, with the events the client receives. *)
Inductive run_of (w : World) (data : dict) : list emission -> Prop :=
| run_analyzer_failed f e :
    ainvoke w (analyzer_prompt (message_of data)) = Failed f e ->
    run_of w data
      (node_start "analyzer" :: tokens_of "analyzer" f ++ [error (exc_str e)])
| run_generator_failed f1 f2 e :
    ainvoke w (analyzer_prompt (message_of data)) = Completed f1 ->
    ainvoke w (generator_prompt (message_of data)
                                (VStr (String.concat EmptyString f1)))
      = Failed f2 e ->
    run_of w data
      (node_start "analyzer" :: tokens_of "analyzer" f1
       ++ node_end "analyzer"
            (slice_to 500
               (py_str (exit_payload w (initial_state data)
                          [("analysis", VStr (String.concat EmptyString f1))])))
       :: node_start "generator" :: tokens_of "generator" f2
       ++ [error (exc_str e)])
| run_all_completed f1 f2 :
    ainvoke w (analyzer_prompt (message_of data)) = Completed f1 ->
    ainvoke w (generator_prompt (message_of data)
                                (VStr (String.concat EmptyString f1)))
      = Completed f2 ->
    let analysis := VStr (String.concat EmptyString f1) in
    let response := VStr (String.concat EmptyString f2) in
    let state1 := initial_state data ++ [("analysis", analysis)] in
    let state2 := state1 ++ [("response", response)] in
    let record := stored_record w (message_of data) analysis response in
    run_of w data
      (node_start "analyzer" :: tokens_of "analyzer" f1
       ++ node_end "analyzer"
            (slice_to 500
               (py_str (exit_payload w (initial_state data)
                          [("analysis", analysis)])))
       :: node_start "generator" :: tokens_of "generator" f2
       ++ [node_end "generator"
             (slice_to 500
                (py_str (exit_payload w state1 [("response", response)])));
           node_start "saver";
           node_end "saver"
             (slice_to 500
                (py_str (exit_payload w state2
                           [("saved_record", VDict record)])));
           db_save (VDict record);
           done true]).

End Shapes.

(** ** Further readings of streams, sequences and the store *)

(** The name carried by the last [node_start] of a sequence, [cur] if there
    is none. *)
Definition last_started_from (cur : option string) (emitted : list emission)
  : option string :=
  fold_left (fun c e => match e with node_start n => Some n | _ => c end)
            emitted cur.

Definition last_started (emitted : list emission) : option string :=
  last_started_from None emitted.

Definition same_name (a b : option string) : bool :=
  match a, b with
  | Some x, Some y => x =? y
  | None, None => true
  | _, _ => false
  end.

(** Every [token] carries the name of the [node_start] before it. *)
Fixpoint names_last_start (cur : option string) (l : list emission) : bool :=
  match l with
  | [] => true
  | e :: l' =>
      match e with
      | token n _ => same_name n cur
      | _ => true
      end
      && names_last_start (last_started_from cur [e]) l'
  end.

(** The events for which the loop body of [chat] has a branch that emits. *)
Definition forwarded (ev : StreamEvent) : bool :=
  let kind := event ev in
  if kind =? "on_chain_start" then in_NODE_NAMES (get_name ev)
  else if kind =? "on_chain_end" then in_NODE_NAMES (get_name ev)
  else if kind =? "on_chat_model_stream" then
    match get_chunk ev with
    | Some c => truthy (content c)
    | None => false
    end
  else false.

Fixpoint stream_filter (keep : StreamEvent -> bool) (s : stream) : stream :=
  match s with
  | Yield ev rest =>
      if keep ev then Yield ev (stream_filter keep rest)
      else stream_filter keep rest
  | _ => s
  end.

(** The generator ends by raising. *)
Fixpoint ends_raising (s : stream) : bool :=
  match s with
  | Stop => false
  | Throw _ => true
  | Yield _ rest => ends_raising rest
  end.

Definition is_saver_exit (ev : StreamEvent) : bool :=
  (event ev =? "on_chain_end") && (get_name ev =? "saver").

(** Successive calls of [save], each with the identifier and time it draws. *)
Fixpoint save_many (calls : list (string * string * dict)) (db : MockDatabase)
  : list dict * MockDatabase :=
  match calls with
  | [] => ([], db)
  | (uuid, now, data) :: rest =>
      let (record, db1) := save uuid now db data in
      let (later, db2) := save_many rest db1 in
      (record :: later, db2)
  end.

(** Every delivery of a handler goes to the session of that handler, and a
    greeting goes to the session that connected. *)
Definition routed (srv : server) : Prop :=
  forall d, In d (outbox srv) ->
    match run d with
    | Some i => exists t, nth_error (tasks srv) i = Some t /\ task_sid t = to d
    | None => payload d = connected (to d)
    end.

Definition is_chat (a : action) : bool :=
  match a with Chat _ _ => true | _ => false end.

(** ** An interpreter that renders values, and a long output *)

(** [repr] as the interpreter writes it for values whose strings have no
    quotes and nothing to escape. *)
Fixpoint plain_repr (v : value) : string :=
  match v with
  | VNone => "None"
  | VBool true => "True"
  | VBool false => "False"
  | VInt z => NilZero.string_of_int (Z.to_int z)
  | VStr s => ("'" ++ s ++ "'")%string
  | VList items =>
      ("[" ++ String.concat ", " (map plain_repr items) ++ "]")%string
  | VDict entries =>
      ("{" ++ String.concat ", "
                (map (fun entry : string * value =>
                        let (k, x) := entry in
                        ("'" ++ k ++ "': " ++ plain_repr x)%string)
                     entries)
           ++ "}")%string
  end.

Definition plain_py : Interpreter :=
  {| py_repr := plain_repr;
     type_error_text := fun operation _ =>
       ("unsupported operand for " ++ operation)%string |}.

(** An analysis of 600 characters, the output that holds it, the exit event
    of the analyzer that carries this output, and its first 500 characters
    as rendered. *)
Definition long_text : string :=
  String.concat EmptyString (repeat "lorem " 100).

Definition long_output : value := VDict [("analysis", VStr long_text)].

Definition long_exit : stream :=
  Yield (chain_event "on_chain_start" "analyzer" [] None)
    (Yield (chain_event "on_chain_end" "analyzer" [] (Some long_output))
       Stop).

Definition long_summary : string :=
  Eval vm_compute in slice_to 500 (@py_str plain_py long_output).




(** * Properties *)

(** ** Strings and dictionaries *)

Lemma slice_to_length (n : nat) (s : string) :
  String.length (slice_to n s) <= n.
Proof.
  unfold slice_to. revert s.
  induction n as [|n IH]; intros [|c s]; simpl; try lia.
  specialize (IH s). lia.
Qed.

Lemma truthy_nonempty (s : string) : truthy s = true <-> s <> EmptyString.
Proof.
  destruct s as [|c s]; simpl; split; intro H.
  - discriminate.
  - now contradiction H.
  - discriminate.
  - reflexivity.
Qed.

Lemma in_NODE_NAMES_In (n : string) : in_NODE_NAMES n = true <-> In n NODE_NAMES.
Proof.
  unfold in_NODE_NAMES. rewrite existsb_exists. split.
  - intros [x [Hin Heq]]. apply String.eqb_eq in Heq. now subst.
  - intro Hin. exists n. split; [assumption | apply String.eqb_refl].
Qed.

(** ** One iteration of the loop *)

Section Translator.
Context {py : Interpreter}.

Lemma on_event_iteration (cur : option string) (ev : StreamEvent) :
  iteration cur ev (on_event cur ev).
Proof.
  unfold on_event.
  destruct (event ev =? "on_chain_start") eqn:Hstart.
  { apply String.eqb_eq in Hstart.
    destruct (in_NODE_NAMES (get_name ev)) eqn:Hin; simpl.
    - now apply it_start.
    - apply it_skip. }
  destruct (event ev =? "on_chain_end") eqn:Hend.
  { apply String.eqb_eq in Hend.
    destruct (in_NODE_NAMES (get_name ev)) eqn:Hin; [|apply it_skip].
    destruct (get_name ev =? "saver") eqn:Hsaver.
    - apply String.eqb_eq in Hsaver. rewrite Hsaver in *.
      destruct (py_contains "saved_record" (get_output ev)) as [[|]|e] eqn:Hc;
        simpl.
      + destruct (py_getitem (get_output ev) "saved_record") as [saved|e]
          eqn:Hs; simpl.
        * destruct (py_getitem saved "id") as [id|e] eqn:Hid; simpl.
          -- now apply it_save with (id := id).
          -- now apply it_end_raise.
        * now apply it_end_raise.
      + now apply it_end.
      + now apply it_end_raise.
    - simpl. now apply it_end. }
  destruct (event ev =? "on_chat_model_stream") eqn:Hstream; [|apply it_skip].
  apply String.eqb_eq in Hstream.
  destruct (get_chunk ev) as [c|] eqn:Hchunk; [|apply it_skip].
  destruct (truthy (content c)) eqn:Ht; simpl.
  - now apply it_token.
  - apply it_skip.
Qed.

(** A property of single events that every iteration keeps holds of the
    whole emitted sequence. *)
Lemma chat_loop_Forall (P : emission -> Prop) :
  (forall cur ev, Forall P (fst (on_event cur ev))) ->
  forall s cur, Forall P (fst (chat_loop cur s)).
Proof.
  intros Hstep s. induction s as [| e | ev rest IH]; intro cur; simpl.
  - constructor.
  - constructor.
  - specialize (Hstep cur ev).
    destruct (on_event cur ev) as [out [cur'|e]]; simpl in *.
    + specialize (IH cur').
      destruct (chat_loop cur' rest) as [out' r]; simpl in *.
      apply Forall_app. now split.
    + assumption.
Qed.

(** The same, with the iterations limited to the events the stream yields. *)
Lemma chat_loop_Forall_yielded (P : emission -> Prop) (s : stream) :
  (forall cur ev, In ev (yielded s) -> Forall P (fst (on_event cur ev))) ->
  forall cur, Forall P (fst (chat_loop cur s)).
Proof.
  induction s as [| e | ev rest IH]; intros Hstep cur; simpl.
  - constructor.
  - constructor.
  - assert (Hev : Forall P (fst (on_event cur ev))).
    { apply Hstep. now left. }
    destruct (on_event cur ev) as [out [cur'|e]]; simpl in *.
    + assert (Hrest : Forall P (fst (chat_loop cur' rest))).
      { apply IH. intros c x Hin. apply Hstep. now right. }
      destruct (chat_loop cur' rest) as [out' r]; simpl in *.
      apply Forall_app. now split.
    + assumption.
Qed.

Lemma chat_body_Forall (P : emission -> Prop) :
  (forall cur ev, Forall P (fst (on_event cur ev))) ->
  P (done true) ->
  (forall m, P (error m)) ->
  forall s, Forall P (chat_body s).
Proof.
  intros Hstep Hdone Herr s. unfold chat_body.
  pose proof (chat_loop_Forall P Hstep s None) as H.
  destruct (chat_loop None s) as [out [u|e]]; simpl in H;
    apply Forall_app; split; auto.
Qed.

End Translator.

(** ** Properties of every emitted sequence *)

(** Reduces a property of what one iteration emits to the six ways an
    iteration can go. *)
Ltac by_iteration :=
  let cur := fresh "cur" in
  let ev := fresh "ev" in
  intros cur ev; destruct (on_event_iteration cur ev); simpl;
  repeat (first [apply Forall_nil | apply Forall_cons]);
  try exact I; try reflexivity.


Section EverySequence.
Context {py : Interpreter}.

(** C2.  Whatever the graph yields and however it ends, the handler emits
    exactly one of [done] and [error], and emits it last: the sequence is a
    prefix without either, followed by one of them. *)
Theorem exactly_one_terminal_event_last (s : stream) :
  exists pre last,
    chat_body s = pre ++ [last]
    /\ terminal last = true
    /\ Forall (fun e => terminal e = false) pre.
Proof.
  unfold chat_body.
  assert (Hpre : Forall (fun e => terminal e = false) (fst (chat_loop None s))).
  { apply chat_loop_Forall. by_iteration. }
  destruct (chat_loop None s) as [out [u|e]]; simpl in Hpre.
  - exists out, (done true). auto.
  - exists out, (error (exc_str e)). auto.
Qed.

Lemma tracked_name_is_given (ev : StreamEvent) (n : string) :
  get_name ev = n -> in_NODE_NAMES n = true -> name ev = Some n.
Proof.
  unfold get_name. destruct (name ev) as [m|]; intros <- Hin.
  - reflexivity.
  - discriminate.
Qed.

(** Where a [node_end] comes from: an exit event that names the stage, whose
    output - the one its [data] holds, the empty dictionary when [data] or
    its [output] is absent - is rendered and cut. *)
Lemma node_end_origin (s : stream) (n summary : string) :
  In (node_end n summary) (chat_body s) ->
  exists (ev : StreamEvent) (out : value),
    In ev (yielded s)
    /\ event ev = "on_chain_end"
    /\ name ev = Some n
    /\ match data ev with
       | Some d =>
           match output d with Some v => out = v | None => out = VDict [] end
       | None => out = VDict []
       end
    /\ summary = slice_to 500 (py_str out).
Proof.
  intro Hin.
  pose (P := fun e =>
    match e with
    | node_end m text =>
        exists ev : StreamEvent,
          In ev (yielded s)
          /\ event ev = "on_chain_end"
          /\ get_name ev = m
          /\ in_NODE_NAMES m = true
          /\ text = slice_to 500 (py_str (get_output ev))
    | _ => True
    end).
  assert (Hloop : Forall P (fst (chat_loop None s))).
  { apply chat_loop_Forall_yielded. intros cur ev Hev.
    destruct (on_event_iteration cur ev); simpl;
      repeat (first [apply Forall_nil | apply Forall_cons]);
      subst P; simpl; try exact I; exists ev; auto 6. }
  assert (H : Forall P (chat_body s)).
  { unfold chat_body.
    destruct (chat_loop None s) as [out [u|e]]; simpl in Hloop;
      apply Forall_app; split; try assumption;
      repeat constructor. }
  rewrite Forall_forall in H. specialize (H _ Hin). simpl in H.
  destruct H as [ev [Hev [Hkind [Hname [Htracked ->]]]]].
  exists ev, (get_output ev).
  split; [assumption|]. split; [assumption|].
  split; [now apply tracked_name_is_given|].
  split; [|reflexivity].
  unfold get_output. destruct (data ev) as [d|]; [|reflexivity].
  now destruct (output d).
Qed.

(** C8.  The [output] of every [node_end] is the first 500 characters of
    [str] of the output that an exit event of that stage carries in its
    [data] (the empty dictionary when it carries none), hence at most 500
    characters long. *)
Theorem node_end_summary_bounded (s : stream) (n summary : string) :
  In (node_end n summary) (chat_body s) ->
  String.length summary <= 500
  /\ exists (ev : StreamEvent) (out : value),
       In ev (yielded s)
       /\ event ev = "on_chain_end"
       /\ name ev = Some n
       /\ match data ev with
          | Some d =>
              match output d with Some v => out = v | None => out = VDict [] end
          | None => out = VDict []
          end
       /\ summary = slice_to 500 (py_str out).
Proof.
  intro Hin.
  destruct (node_end_origin s n summary Hin)
    as [ev [out [Hev [Hkind [Hname [Hout Hsum]]]]]].
  split.
  - rewrite Hsum. apply slice_to_length.
  - exists ev, out. auto.
Qed.

(** C10.  Every [token] carries non-empty content, and a model-stream event
    whose chunk is absent or has empty content emits nothing and leaves
    [current_node] as it was. *)
Theorem token_content_nonempty :
  (forall (s : stream) (n : option string) (c : string),
      In (token n c) (chat_body s) -> c <> EmptyString)
  /\ (forall (cur : option string) (ev : StreamEvent),
         event ev = "on_chat_model_stream" ->
         (get_chunk ev = None
          \/ exists ch, get_chunk ev = Some ch /\ content ch = EmptyString) ->
         on_event cur ev = ([], Ok cur)).
Proof.
  split.
  - intros s n c Hin.
    pose (P := fun e =>
      match e with token _ text => text <> EmptyString | _ => True end).
    assert (H : Forall P (chat_body s)).
    { apply chat_body_Forall; subst P; simpl; auto.
      by_iteration. now apply truthy_nonempty. }
    rewrite Forall_forall in H. exact (H _ Hin).
  - intros cur ev Hkind Hchunk. unfold on_event. rewrite Hkind. simpl.
    destruct Hchunk as [Hnone | [ch [Hsome Hempty]]].
    + now rewrite Hnone.
    + rewrite Hsome, Hempty. reflexivity.
Qed.

End EverySequence.

(** ** The runs of the workflow *)

Lemma yield_all_app (l1 l2 : list StreamEvent) (rest : stream) :
  yield_all (l1 ++ l2) rest = yield_all l1 (yield_all l2 rest).
Proof.
  induction l1 as [|ev l1 IH]; simpl; [reflexivity | now rewrite IH].
Qed.

Lemma yielded_yield_all (l : list StreamEvent) (rest : stream) :
  yielded (yield_all l rest) = l ++ yielded rest.
Proof.
  induction l as [|ev l IH]; simpl; [reflexivity | now rewrite IH].
Qed.

Section Runs.
Context {py : Interpreter}.

#[local] Arguments analyzer_prompt : simpl never.
#[local] Arguments generator_prompt : simpl never.
#[local] Arguments slice_to : simpl never.
#[local] Arguments py_str : simpl never.

(** The fragments of a model call become the [token] events of the stage
    that is current, empty ones dropped. *)
Lemma chat_loop_fragments (cur : option string) (fragments : list string)
    (rest : stream) :
  chat_loop cur (yield_all (map fragment_event fragments) rest) =
  (map (token cur) (filter truthy fragments) ++ fst (chat_loop cur rest),
   snd (chat_loop cur rest)).
Proof.
  induction fragments as [|f fragments IH]; simpl.
  - now destruct (chat_loop cur rest).
  - unfold on_event at 1. simpl.
    destruct (truthy f); simpl; rewrite IH; reflexivity.
Qed.

(** A model call that completes, seen by the handler. *)
Lemma chat_loop_model_completed (cur : option string) (f : list string)
    (rest : stream) :
  chat_loop cur
    (yield_all (model_event "on_chat_model_start" None
                  :: map fragment_event f
                  ++ [model_event "on_chat_model_end" None]) rest) =
  (map (token cur) (filter truthy f) ++ fst (chat_loop cur rest),
   snd (chat_loop cur rest)).
Proof.
  simpl. rewrite yield_all_app, chat_loop_fragments. simpl.
  now destruct (chat_loop cur rest).
Qed.

(** A model call that raises after some fragments, seen by the handler. *)
Lemma chat_loop_model_failed (cur : option string) (f : list string)
    (e : exception) :
  chat_loop cur
    (yield_all (model_event "on_chat_model_start" None :: map fragment_event f)
               (Throw e)) =
  (map (token cur) (filter truthy f), Raise e).
Proof.
  simpl. rewrite chat_loop_fragments. simpl. now rewrite app_nil_r.
Qed.

Lemma analyzer_node_run (w : World) (ui : value) (state : dict) :
  dict_get state "user_input" = Some ui ->
  analyzer_node w state =
  match ainvoke w (analyzer_prompt ui) with
  | Completed f =>
      (model_event "on_chat_model_start" None
         :: map fragment_event f ++ [model_event "on_chat_model_end" None],
       Ok [("analysis", VStr (String.concat EmptyString f))])
  | Failed f e =>
      (model_event "on_chat_model_start" None :: map fragment_event f, Raise e)
  end.
Proof.
  intro Hui. unfold analyzer_node, state_get, llm_ainvoke. simpl.
  rewrite Hui. simpl.
  destruct (ainvoke w (analyzer_prompt ui)) as [f|f e]; simpl.
  - now rewrite app_nil_r.
  - reflexivity.
Qed.

Lemma generator_node_run (w : World) (ui an : value) (state : dict) :
  dict_get state "user_input" = Some ui ->
  dict_get state "analysis" = Some an ->
  generator_node w state =
  match ainvoke w (generator_prompt ui an) with
  | Completed f =>
      (model_event "on_chat_model_start" None
         :: map fragment_event f ++ [model_event "on_chat_model_end" None],
       Ok [("response", VStr (String.concat EmptyString f))])
  | Failed f e =>
      (model_event "on_chat_model_start" None :: map fragment_event f, Raise e)
  end.
Proof.
  intros Hui Han. unfold generator_node, state_get, llm_ainvoke. simpl.
  rewrite Hui. simpl. rewrite Han. simpl.
  destruct (ainvoke w (generator_prompt ui an)) as [f|f e]; simpl.
  - now rewrite app_nil_r.
  - reflexivity.
Qed.


Lemma chat_events_run_of (w : World) (db : MockDatabase) (data : dict) :
  run_of w data (chat_events w db data).
Proof.
  unfold chat_events, astream_events, chat_body, recursion_limit, initial_state.
  simpl.
  rewrite (analyzer_node_run w (message_of data)) by reflexivity.
  destruct (ainvoke w (analyzer_prompt (message_of data))) as [f1|f1 e1] eqn:H1;
    cbn [bind ret app]; rewrite ?app_nil_r.
  2:{ rewrite chat_loop_model_failed. simpl. now apply run_analyzer_failed. }
  rewrite chat_loop_model_completed. simpl.
  rewrite (generator_node_run w (message_of data)
             (VStr (String.concat EmptyString f1))) by reflexivity.
  destruct (ainvoke w (generator_prompt (message_of data)
                         (VStr (String.concat EmptyString f1))))
    as [f2|f2 e2] eqn:H2; cbn [bind ret app]; rewrite ?app_nil_r.
  2:{ rewrite chat_loop_model_failed. simpl.
      rewrite <- app_assoc. simpl.
      now apply (run_generator_failed w data f1 f2 e2). }
  rewrite chat_loop_model_completed.
  pose proof (run_all_completed w data f1 f2 H1 H2) as R.
  unfold exit_payload, initial_state in *.
  destruct (exit_carries_state w); simpl in *;
    repeat (rewrite <- app_assoc; simpl); exact R.
Qed.
End Runs.

(** ** Reading sequences *)

Lemma well_attributed_token (pre : list emission) :
  forall (open : list string) (n : option string) (c : string)
         (post : list emission),
    well_attributed open (pre ++ token n c :: post) = true ->
    exists stage, n = Some stage /\ fold_left track pre open = [stage].
Proof.
  induction pre as [|e pre IH]; intros open n c post H; simpl in H;
    apply andb_prop in H; destruct H as [Hhead Htail].
  - destruct n as [stage|]; [|discriminate].
    destruct open as [|stage' [|]]; try discriminate.
    apply String.eqb_eq in Hhead. subst. now exists stage'.
  - simpl. now apply IH with (c := c) (post := post).
Qed.

Lemma well_attributed_tokens (stage : string) (f : list string)
    (rest : list emission) :
  well_attributed [stage] (tokens_of stage f ++ rest)
  = well_attributed [stage] rest.
Proof.
  unfold tokens_of. induction f as [|x f IH]; simpl; [reflexivity|].
  destruct (truthy x); simpl; [|assumption].
  now rewrite String.eqb_refl.
Qed.

Lemma Forall_tokens_of (P : emission -> Prop) (stage : string)
    (f : list string) :
  (forall c, P (token (Some stage) c)) -> Forall P (tokens_of stage f).
Proof.
  intro H. unfold tokens_of. apply Forall_forall. intros e Hin.
  apply in_map_iff in Hin. destruct Hin as [c [<- _]]. apply H.
Qed.

Section RunTheorems.
Context {py : Interpreter}.

(** C1.  When all three stages return, the client receives exactly:
    [node_start(analyzer)], the tokens of the analyzer, [node_end(analyzer)],
    [node_start(generator)], the tokens of the generator,
    [node_end(generator)], [node_start(saver)], [node_end(saver)], [db_save],
    [done]; the tokens are those of the non-empty fragments of the stage's
    model call, so none lies outside the boundary of its stage. *)
Theorem successful_run_sequence (w : World) (db : MockDatabase) (data : dict) :
  run_completes w db data ->
  exists (f1 f2 : list string) (s1 s2 s3 : string) (record : value),
    ainvoke w (analyzer_prompt (message_of data)) = Completed f1
    /\ ainvoke w (generator_prompt (message_of data)
                                   (VStr (String.concat EmptyString f1)))
       = Completed f2
    /\ chat_events w db data =
       node_start "analyzer" :: tokens_of "analyzer" f1
       ++ node_end "analyzer" s1
       :: node_start "generator" :: tokens_of "generator" f2
       ++ [node_end "generator" s2;
           node_start "saver"; node_end "saver" s3;
           db_save record; done true].
Proof.
  unfold run_completes, recursion_limit, initial_state. simpl.
  rewrite (analyzer_node_run w (message_of data)) by reflexivity.
  intro H.
  destruct (chat_events_run_of w db data) as [f e H1 | f1 f2 e H1 H2 | f1 f2 H1 H2].
  - rewrite H1 in H. simpl in H. contradiction.
  - rewrite H1 in H. simpl in H.
    rewrite (generator_node_run w (message_of data)
               (VStr (String.concat EmptyString f1))) in H by reflexivity.
    rewrite H2 in H. simpl in H. contradiction.
  - do 6 eexists. repeat split; eauto.
Qed.

End RunTheorems.

Lemma successful_run_sequence_witness :
  exists (f1 f2 : list string) (s1 s2 s3 : string) (record : value),
    ainvoke sample_world (@analyzer_prompt sample_py (message_of hello))
    = Completed f1
    /\ ainvoke sample_world
         (@generator_prompt sample_py (message_of hello)
            (VStr (String.concat EmptyString f1)))
       = Completed f2
    /\ @chat_events sample_py sample_world empty_db hello =
       node_start "analyzer" :: tokens_of "analyzer" f1
       ++ node_end "analyzer" s1
       :: node_start "generator" :: tokens_of "generator" f2
       ++ [node_end "generator" s2;
           node_start "saver"; node_end "saver" s3;
           db_save record; done true].
Proof.
  apply (@successful_run_sequence sample_py sample_world empty_db hello).
  vm_compute. exact I.
Defined.

Lemma node_end_summary_bounded_witness :
  String.length (@py_str plain_py long_output) = 616
  /\ String.length long_summary = 500
  /\ String.length long_summary <= 500
  /\ exists (ev : StreamEvent) (out : value),
       In ev (yielded long_exit)
       /\ event ev = "on_chain_end"
       /\ name ev = Some "analyzer"
       /\ match data ev with
          | Some d =>
              match output d with Some v => out = v | None => out = VDict [] end
          | None => out = VDict []
          end
       /\ long_summary = slice_to 500 (@py_str plain_py out).
Proof.
  split; [vm_compute; reflexivity|].
  split; [vm_compute; reflexivity|].
  apply (@node_end_summary_bounded plain_py long_exit "analyzer" long_summary).
  vm_compute. right. left. reflexivity.
Defined.

(** ** Attribution of tokens and node names *)

Section Attribution.
Context {py : Interpreter}.

Lemma run_of_well_attributed (w : World) (data : dict) (l : list emission) :
  run_of w data l -> well_attributed [] l = true.
Proof.
  intros [f e H1 | f1 f2 e H1 H2 | f1 f2 H1 H2]; simpl;
    repeat (rewrite well_attributed_tokens; simpl); reflexivity.
Qed.

(** C4.  A [token] is emitted only while exactly one stage is open - entered
    and not yet exited - and its [node] is that stage: none names a stage
    that has exited and none comes before the first stage is entered. *)
Theorem token_names_open_stage (w : World) (db : MockDatabase) (data : dict)
    (pre post : list emission) (n : option string) (c : string) :
  chat_events w db data = pre ++ token n c :: post ->
  exists stage, n = Some stage /\ open_stages pre = [stage].
Proof.
  intro Hsplit. unfold open_stages.
  apply well_attributed_token with (c := c) (post := post).
  rewrite <- Hsplit.
  apply run_of_well_attributed with (w := w) (data := data).
  apply chat_events_run_of.
Qed.


(** The handler itself never clears [current_node]: on events that no run
    of the workflow yields - a fragment after the exit of a stage, or before
    any stage is entered - the token takes the name entered last, or none. *)
Remark fragment_outside_stage_keeps_current_node :
  chat_body
    (Yield (chain_event "on_chain_start" "analyzer" [] None)
       (Yield (chain_event "on_chain_end" "analyzer" [] None)
          (Yield (fragment_event "late") Stop)))
  = [node_start "analyzer";
     node_end "analyzer" (slice_to 500 (py_str (VDict [])));
     token (Some "analyzer") "late";
     done true]
  /\ chat_body (Yield (fragment_event "early") Stop)
     = [token None "early"; done true].
Proof. split; reflexivity. Qed.

End Attribution.

Lemma token_names_open_stage_witness :
  exists stage,
    Some "analyzer" = Some stage
    /\ open_stages [node_start "analyzer"] = [stage].
Proof.
  apply (@token_names_open_stage sample_py sample_world empty_db hello
           [node_start "analyzer"]
           [token (Some "analyzer") "there";
            node_end "analyzer" "{...}";
            node_start "generator"; token (Some "generator") "ok";
            node_end "generator" "{...}";
            node_start "saver"; node_end "saver" "{...}";
            db_save (VDict (stored_record sample_world (VStr "hello")
                              (VStr "hi there") (VStr "ok")));
            done true]
           (Some "analyzer") "hi ").
  vm_compute. reflexivity.
Defined.

(** ** Persistence events *)

Lemma split_at_unique {A : Type} (P : A -> bool) (l1 : list A) :
  forall (x : A) (l2 pre : list A) (y : A) (post : list A),
    Forall (fun a => P a = false) l1 ->
    Forall (fun a => P a = false) l2 ->
    P y = true ->
    l1 ++ x :: l2 = pre ++ y :: post ->
    pre = l1 /\ y = x /\ post = l2.
Proof.
  induction l1 as [|a l1 IH]; intros x l2 pre y post H1 H2 Hy Heq.
  - destruct pre as [|b pre]; simpl in Heq; injection Heq as -> ->.
    + auto.
    + rewrite Forall_forall in H2.
      assert (Hin : In y (pre ++ y :: post)) by (apply in_elt).
      apply H2 in Hin. congruence.
  - inversion H1 as [|? ? Ha H1']; subst.
    destruct pre as [|b pre]; simpl in Heq; injection Heq as -> Heq.
    + congruence.
    + destruct (IH x l2 pre y post H1' H2 Hy Heq) as [-> [-> ->]]. auto.
Qed.

Lemma saves_follow_exit_app (l1 l2 : list emission) :
  forall prev,
    saves_follow_exit prev l1 = true ->
    (forall q, saves_follow_exit q l2 = true) ->
    saves_follow_exit prev (l1 ++ l2) = true.
Proof.
  induction l1 as [|e l1 IH]; intros prev H1 H2; simpl in *.
  - apply H2.
  - apply andb_prop in H1. destruct H1 as [Hhead Htail].
    rewrite Hhead. simpl. now apply IH.
Qed.

Lemma saves_follow_exit_before (r : value) (post pre : list emission) :
  forall prev,
    saves_follow_exit prev (pre ++ db_save r :: post) = true ->
    (pre = [] /\ exists summary, prev = Some (node_end "saver" summary))
    \/ exists pre' summary, pre = pre' ++ [node_end "saver" summary].
Proof.
  induction pre as [|e pre IH]; intros prev H; simpl in H;
    apply andb_prop in H; destruct H as [Hhead Htail].
  - left. split; [reflexivity|].
    destruct prev as [[]|]; try discriminate.
    apply String.eqb_eq in Hhead. subst. eauto.
  - right. destruct (IH _ Htail) as [[Hnil [summary Hprev]] | [pre' [summary Hpre]]].
    + injection Hprev as Hprev. subst. now exists [], summary.
    + subst. now exists (e :: pre'), summary.
Qed.

Section Persistence.
Context {py : Interpreter}.

#[local] Arguments analyzer_prompt : simpl never.
#[local] Arguments generator_prompt : simpl never.

Lemma chat_body_saves_follow_exit (s : stream) :
  saves_follow_exit None (chat_body s) = true.
Proof.
  assert (Hloop : forall s cur prev,
             saves_follow_exit prev (fst (chat_loop cur s)) = true).
  { clear s. induction s as [| e | ev rest IH]; intros cur prev; simpl;
      try reflexivity.
    assert (Hstep : forall q, saves_follow_exit q (fst (on_event cur ev)) = true).
    { intro q. destruct (on_event_iteration cur ev); simpl;
        try reflexivity; destruct q as [[]|]; reflexivity. }
    destruct (on_event cur ev) as [out [cur'|e]]; simpl in *.
    - specialize (IH cur').
      destruct (chat_loop cur' rest) as [out' r]; simpl in *.
      apply saves_follow_exit_app; auto.
    - apply Hstep. }
  unfold chat_body. specialize (Hloop s None None).
  destruct (chat_loop None s) as [out [u|e]]; simpl in Hloop;
    apply saves_follow_exit_app; auto;
    intros [[]|]; reflexivity.
Qed.

(** The state the saver receives in a run whose model calls complete. *)
Lemma saver_entered_with (w : World) (db : MockDatabase) (data : dict)
    (f1 f2 : list string) :
  ainvoke w (analyzer_prompt (message_of data)) = Completed f1 ->
  ainvoke w (generator_prompt (message_of data)
                              (VStr (String.concat EmptyString f1)))
    = Completed f2 ->
  In (chain_event "on_chain_start" "saver"
        [("user_input", message_of data);
         ("analysis", VStr (String.concat EmptyString f1));
         ("response", VStr (String.concat EmptyString f2))] None)
     (yielded (astream_events w db (initial_state data))).
Proof.
  intros H1 H2. unfold astream_events, recursion_limit, initial_state. simpl.
  rewrite (analyzer_node_run w (message_of data)) by reflexivity.
  rewrite H1. cbn [bind ret app].
  right. right. rewrite yielded_yield_all. right.
  apply in_or_app. right. simpl.
  rewrite (generator_node_run w (message_of data)
             (VStr (String.concat EmptyString f1))) by reflexivity.
  rewrite H2. cbn [bind ret app].
  right. right. rewrite yielded_yield_all. right.
  apply in_or_app. right. simpl. right. left. reflexivity.
Qed.

Lemma no_save_in_tokens (stage : string) (f : list string) :
  Forall (fun e => is_db_save e = false) (tokens_of stage f).
Proof. apply Forall_tokens_of. reflexivity. Qed.

(** C6.  Whatever the graph yields, a [db_save] comes directly after a
    [node_end] of the saver.  In a run its payload is the record stored by
    the saver: it carries the [id] and [created_at] drawn by [save], and the
    state the saver received had no [saved_record], [id] or [created_at].
    And the exit of the saver whose output holds a [saved_record] with an
    [id] emits [node_end] and then [db_save] of that record at once. *)
Theorem db_save_follows_saver_exit :
  (forall (s : stream) (pre post : list emission) (record : value),
      chat_body s = pre ++ db_save record :: post ->
      exists pre' summary, pre = pre' ++ [node_end "saver" summary])
  /\ (forall (w : World) (db : MockDatabase) (data : dict)
             (pre post : list emission) (record : value),
         chat_events w db data = pre ++ db_save record :: post ->
         py_getitem record "id" = Ok (VStr (uuid4 w))
         /\ py_getitem record "created_at" = Ok (VStr (now_isoformat w))
         /\ exists state : dict,
              In (chain_event "on_chain_start" "saver" state None)
                 (yielded (astream_events w db (initial_state data)))
              /\ dict_has state "saved_record" = false
              /\ dict_has state "id" = false
              /\ dict_has state "created_at" = false)
  /\ (forall (cur : option string) (ev : StreamEvent) (out saved : dict)
             (id : value),
         event ev = "on_chain_end" -> get_name ev = "saver" ->
         get_output ev = VDict out ->
         dict_get out "saved_record" = Some (VDict saved) ->
         dict_get saved "id" = Some id ->
         on_event cur ev =
         ([node_end "saver" (slice_to 500 (py_str (VDict out)));
           db_save (VDict saved)], Ok cur)).
Proof.
  split; [|split].
  - intros s pre post record Heq.
    pose proof (chat_body_saves_follow_exit s) as H. rewrite Heq in H.
    apply saves_follow_exit_before in H.
    destruct H as [[_ [summary [=]]] | H]; assumption.
  - intros w db data pre post record Heq.
    destruct (chat_events_run_of w db data)
      as [f e H1 | f1 f2 e H1 H2 | f1 f2 H1 H2 an rs st1 st2 stored].
    + exfalso.
      assert (H : Forall (fun e => is_db_save e = false)
                         (node_start "analyzer"
                          :: tokens_of "analyzer" f ++ [error (exc_str e)])).
      { constructor; [reflexivity|]. apply Forall_app. split.
        - apply no_save_in_tokens.
        - repeat constructor. }
      rewrite Heq, Forall_forall in H.
      specialize (H (db_save record) (in_elt _ _ _)). discriminate.
    + exfalso.
      match type of Heq with ?l = _ =>
        assert (H : Forall (fun e => is_db_save e = false) l) end.
      { constructor; [reflexivity|]. apply Forall_app. split.
        - apply no_save_in_tokens.
        - constructor; [reflexivity|]. constructor; [reflexivity|].
          apply Forall_app. split.
          + apply no_save_in_tokens.
          + repeat constructor. }
      rewrite Heq, Forall_forall in H.
      specialize (H (db_save record) (in_elt _ _ _)). discriminate.
    + match type of Heq with
        node_start ?a :: ?t1 ++ ?e1 :: ?s2 :: ?t2 ++ [?e2; ?s3; ?e3; ?d; ?fin] = _ =>
          assert (Hshape :
            (node_start a :: t1 ++ e1 :: s2 :: t2 ++ [e2; s3; e3]) ++ d :: [fin]
            = pre ++ db_save record :: post)
      end.
      { rewrite <- Heq. simpl. rewrite <- app_assoc. simpl.
        rewrite <- app_assoc. reflexivity. }
      apply (split_at_unique is_db_save) in Hshape.
      * destruct Hshape as [_ [Hrecord _]]. injection Hrecord as ->.
        subst stored. simpl.
        split; [reflexivity|]. split; [reflexivity|].
        exists [("user_input", message_of data); ("analysis", an);
                ("response", rs)].
        split; [now apply saver_entered_with|]. auto.
      * constructor; [reflexivity|]. apply Forall_app. split.
        -- apply no_save_in_tokens.
        -- constructor; [reflexivity|]. constructor; [reflexivity|].
           apply Forall_app. split.
           ++ apply no_save_in_tokens.
           ++ repeat constructor.
      * repeat constructor.
      * reflexivity.
  - intros cur ev out saved id Hkind Hname Hout Hsaved Hid.
    unfold on_event. rewrite Hkind, Hname, Hout. simpl.
    unfold dict_has. rewrite Hsaved. simpl.
    rewrite Hid. reflexivity.
Qed.

End Persistence.

(** ** Failure of a stage *)

Lemma filter_tokens_of (P : emission -> bool) (stage : string)
    (f : list string) :
  (forall c, P (token (Some stage) c) = false) ->
  filter P (tokens_of stage f) = [].
Proof.
  intro H. unfold tokens_of.
  induction (filter truthy f) as [|c l IH]; simpl; [reflexivity|].
  now rewrite H.
Qed.

Lemma no_start_in_tokens (n stage : string) (f : list string) :
  ~ In (node_start n) (tokens_of stage f).
Proof.
  unfold tokens_of. intro Hin. apply in_map_iff in Hin.
  destruct Hin as [c [Heq _]]. discriminate.
Qed.

Section Failure.
Context {py : Interpreter}.

#[local] Arguments analyzer_prompt : simpl never.
#[local] Arguments generator_prompt : simpl never.

(** How a run can fail: the model call of the analyzer raises, or that of
    the generator does after the analyzer returned; the saver has no failing
    path. *)
Lemma run_fails_at_cases (w : World) (db : MockDatabase) (data : dict)
    (stage : string) (e : exception) :
  run_fails_at w db data stage e ->
  (stage = "analyzer"
   /\ exists f, ainvoke w (analyzer_prompt (message_of data)) = Failed f e)
  \/ (stage = "generator"
      /\ exists f1 f2,
           ainvoke w (analyzer_prompt (message_of data)) = Completed f1
           /\ ainvoke w (generator_prompt (message_of data)
                           (VStr (String.concat EmptyString f1)))
              = Failed f2 e).
Proof.
  unfold run_fails_at, recursion_limit, initial_state. simpl.
  rewrite (analyzer_node_run w (message_of data)) by reflexivity.
  destruct (ainvoke w (analyzer_prompt (message_of data))) as [f1|f1 e1]
    eqn:H1; simpl.
  - rewrite (generator_node_run w (message_of data)
               (VStr (String.concat EmptyString f1))) by reflexivity.
    destruct (ainvoke w (generator_prompt (message_of data)
                           (VStr (String.concat EmptyString f1))))
      as [f2|f2 e2] eqn:H2; simpl.
    + contradiction.
    + intros [<- <-]. right. split; [reflexivity|]. exists f1, f2. now split.
  - intros [<- <-]. left. split; [reflexivity|]. now exists f1.
Qed.

(** C7.  When a stage raises, the client receives one [error], carrying
    [str] of the exception, as the last event and no [done]; the failed stage
    was entered exactly once, and no stage after it along the edges is
    entered. *)
Theorem failed_stage_aborts_run (w : World) (db : MockDatabase) (data : dict)
    (stage : string) (e : exception) :
  run_fails_at w db data stage e ->
  exists pre,
    chat_events w db data = pre ++ [error (exc_str e)]
    /\ Forall (fun x => terminal x = false) pre
    /\ List.length (filter (is_node_start stage) pre) = 1
    /\ forall later,
         In later (downstream recursion_limit workflow stage) ->
         ~ In (node_start later) pre.
Proof.
  intro Hfail. apply run_fails_at_cases in Hfail.
  destruct Hfail as [[-> [f Hf]] | [-> [f1 [f2 [Hf1 Hf2]]]]];
    destruct (chat_events_run_of w db data)
      as [g e' G1 | g1 g2 e' G1 G2 | g1 g2 G1 G2];
    try congruence.
  - rewrite Hf in G1. injection G1 as <- <-.
    exists (node_start "analyzer" :: tokens_of "analyzer" f).
    split; [reflexivity|]. split; [|split].
    + constructor; [reflexivity|]. now apply Forall_tokens_of.
    + simpl. now rewrite filter_tokens_of.
    + intros later Hlater Hin. simpl in Hlater, Hin.
      destruct Hin as [Hin | Hin]; [|now apply no_start_in_tokens in Hin].
      injection Hin as <-.
      destruct Hlater as [H | [H | []]]; discriminate.
  - rewrite Hf1 in G1. injection G1 as <-.
    rewrite Hf2 in G2. injection G2 as <- <-.
    match goal with |- exists pre, ?a :: ?t1 ++ ?b :: ?c :: ?t2 ++ [?err] = _ /\ _ =>
      exists (a :: t1 ++ b :: c :: t2) end.
    split; [|split; [|split]].
    + simpl. rewrite <- app_assoc. reflexivity.
    + constructor; [reflexivity|]. apply Forall_app. split.
      * now apply Forall_tokens_of.
      * constructor; [reflexivity|]. constructor; [reflexivity|].
        now apply Forall_tokens_of.
    + simpl. rewrite filter_app. simpl. rewrite !filter_tokens_of by reflexivity.
      reflexivity.
    + intros later Hlater Hin. simpl in Hlater.
      destruct Hlater as [<- | []].
      simpl in Hin. destruct Hin as [Hin | Hin]; [discriminate|].
      apply in_app_or in Hin.
      destruct Hin as [Hin | Hin]; [now apply no_start_in_tokens in Hin|].
      simpl in Hin. destruct Hin as [Hin | [Hin | Hin]]; try discriminate.
      now apply no_start_in_tokens in Hin.
Qed.

End Failure.

Lemma failed_stage_aborts_run_witness :
  exists pre,
    @chat_events sample_py failing_world empty_db hello
    = pre ++ [error (@exc_str sample_py (Exception "connection refused"))]
    /\ Forall (fun x => terminal x = false) pre
    /\ List.length (filter (is_node_start "generator") pre) = 1
    /\ forall later,
         In later (downstream recursion_limit (@workflow sample_py) "generator") ->
         ~ In (node_start later) pre.
Proof.
  apply (@failed_stage_aborts_run sample_py failing_world empty_db hello
           "generator" (Exception "connection refused")).
  vm_compute. split; reflexivity.
Defined.

(** ** The persistence stage *)





(** ** Handlers side by side *)

Lemma nth_error_update_nth_same {A : Type} (l : list A) :
  forall (i : nat) (x y : A),
    nth_error l i = Some y -> nth_error (update_nth i x l) i = Some x.
Proof.
  induction l as [|a l IH]; intros [|i] x y H; simpl in *; try discriminate.
  - reflexivity.
  - now apply IH with (y := y).
Qed.

Lemma nth_error_update_nth_other {A : Type} (l : list A) :
  forall (i j : nat) (x : A),
    i <> j -> nth_error (update_nth j x l) i = nth_error l i.
Proof.
  induction l as [|a l IH]; intros [|i] [|j] x Hneq; simpl;
    try reflexivity; try congruence.
  apply IH. congruence.
Qed.

Lemma deliveries_of_run (i j : nat) (sid : string) (out : list emission) :
  map payload
    (filter (run_is i)
       (map (fun e => {| run := Some j; to := sid; payload := e |}) out))
  = if Nat.eqb j i then out else [].
Proof.
  induction out as [|e out IH]; simpl.
  - now destruct (Nat.eqb j i).
  - unfold run_is at 1. simpl. destruct (Nat.eqb j i); simpl.
    + now rewrite IH.
    + assumption.
Qed.

Section Sessions.
Context {py : Interpreter}.

Lemma emitted_in_step (k : nat) (h : handler) :
  emitted_in (S k) h = fst (advance h) ++ emitted_in k (snd (advance h)).
Proof. simpl. now destruct (advance h). Qed.

(** One action changes what handler [i] has emitted only when it is a turn
    of handler [i]. *)
Lemma react_events_of_run (srv : server) (a : action) (i : nat) (t : task) :
  nth_error (tasks srv) i = Some t ->
  exists t',
    nth_error (tasks (react srv a)) i = Some t'
    /\ forall k,
         events_of_run i (react srv a) ++ emitted_in k (task_state t')
         = events_of_run i srv
           ++ emitted_in (turns_of i [a] + k) (task_state t).
Proof.
  intro Hi. destruct a as [sid | sid | sid s | j]; simpl.
  - exists t. split; [assumption|]. intro k.
    unfold events_of_run. simpl. rewrite filter_app, map_app. simpl.
    now rewrite app_nil_r.
  - exists t. auto.
  - exists t. split; [|reflexivity].
    rewrite nth_error_app1; [assumption|].
    apply nth_error_Some. congruence.
  - unfold turns_of. simpl.
    destruct (Nat.eqb j i) eqn:Hji.
    + apply Nat.eqb_eq in Hji. subst j. rewrite Hi.
      destruct (advance (task_state t)) as [out h'] eqn:Hadv. simpl.
      exists {| task_sid := task_sid t; task_state := h' |}. split.
      * now apply nth_error_update_nth_same with (y := t).
      * intro k. unfold events_of_run. simpl.
        rewrite filter_app, map_app, deliveries_of_run, Nat.eqb_refl.
        rewrite Hadv. simpl. now rewrite app_assoc.
    + apply Nat.eqb_neq in Hji.
      destruct (nth_error (tasks srv) j) as [tj|] eqn:Hj.
      * destruct (advance (task_state tj)) as [out h'] eqn:Hadv. simpl.
        exists t. split.
        -- rewrite nth_error_update_nth_other by congruence. assumption.
        -- intro k. unfold events_of_run. simpl.
           rewrite filter_app, map_app, deliveries_of_run.
           apply Nat.eqb_neq in Hji. rewrite Hji. now rewrite app_nil_r.
      * exists t. auto.
Qed.

Lemma turns_of_cons (i : nat) (a : action) (acts : list action) :
  turns_of i (a :: acts) = turns_of i [a] + turns_of i acts.
Proof.
  unfold turns_of. simpl.
  destruct a; simpl; try reflexivity. now destruct (Nat.eqb i0 i).
Qed.

Lemma run_actions_events_of_run (acts : list action) :
  forall (srv : server) (i : nat) (t : task),
    nth_error (tasks srv) i = Some t ->
    events_of_run i (run_actions acts srv)
    = events_of_run i srv ++ emitted_in (turns_of i acts) (task_state t).
Proof.
  induction acts as [|a acts IH]; intros srv i t Hi.
  - simpl. now rewrite app_nil_r.
  - destruct (react_events_of_run srv a i t Hi) as [t' [Hi' Hstep]].
    change (run_actions (a :: acts) srv) with (run_actions acts (react srv a)).
    rewrite (IH (react srv a) i t' Hi'), turns_of_cons. apply Hstep.
Qed.

(** A handler left to run emits what [chat] emits on its events. *)
Lemma emitted_in_chat_loop (s : stream) :
  forall (cur : option string) (k : nat),
    stream_length s < k ->
    emitted_in k (Running cur s)
    = match chat_loop cur s with
      | (out, Ok _) => out ++ [done true]
      | (out, Raise e) => out ++ [error (exc_str e)]
      end.
Proof.
  assert (Hreturned : forall k, emitted_in k Returned = []).
  { induction k as [|k IHk]; simpl; [reflexivity | assumption]. }
  induction s as [| e | ev rest IH]; intros cur [|k] Hk; simpl in Hk;
    try lia.
  - simpl. now rewrite Hreturned.
  - simpl. now rewrite Hreturned.
  - rewrite emitted_in_step. simpl.
    destruct (on_event cur ev) as [out [cur'|e]]; simpl.
    + rewrite (IH cur' k) by lia.
      destruct (chat_loop cur' rest) as [out' [u|e]]; now rewrite app_assoc.
    + now rewrite Hreturned, app_nil_r.
Qed.

(** C3, as the code has it.  A [chat] message always starts a handler,
    whether or not the session has one running, and nothing is delivered for
    the message itself; whatever arrives and however turns are taken, what a
    handler delivers is what it emits in its own turns; and a handler given
    its turns delivers what [chat] emits on its events, ending in its own
    [done] or [error]. *)
Theorem second_chat_starts_independent_run :
  (forall (srv : server) (sid : string) (s : stream),
      tasks (react srv (Chat sid s))
      = tasks srv ++ [{| task_sid := sid; task_state := Running None s |}]
      /\ outbox (react srv (Chat sid s)) = outbox srv)
  /\ (forall (acts : list action) (srv : server) (i : nat) (t : task),
         nth_error (tasks srv) i = Some t ->
         events_of_run i (run_actions acts srv)
         = events_of_run i srv ++ emitted_in (turns_of i acts) (task_state t))
  /\ (forall (s : stream) (k : nat),
         stream_length s < k -> emitted_in k (Running None s) = chat_body s).
Proof.
  split; [|split].
  - intros srv sid s. split; reflexivity.
  - intros acts srv i t Hi. now apply run_actions_events_of_run.
  - intros s k Hk. unfold chat_body. now apply emitted_in_chat_loop.
Qed.

End Sessions.

(** C3, as the claim has it, fails: session [c1] has a handler running, the
    second message is not rejected - nothing is delivered for it - and a
    second handler is started, which enters the analyzer on its second
    turn. *)
Lemma second_chat_is_not_rejected :
  has_active_run busy "c1" = true
  /\ outbox (@react sample_py busy (Chat "c1" second_events)) = outbox busy
  /\ tasks (@react sample_py busy (Chat "c1" second_events)) <> tasks busy
  /\ has_active_run
       {| tasks := skipn 1 (tasks (@react sample_py busy (Chat "c1" second_events)));
          outbox := [] |} "c1" = true
  /\ events_of_run 1
       (@run_actions sample_py [Advance 1; Advance 1]
          (@react sample_py busy (Chat "c1" second_events)))
     = [node_start "analyzer"].
Proof.
  split; [vm_compute; reflexivity|].
  split; [vm_compute; reflexivity|].
  split; [|split].
  - intro H. apply (f_equal (@List.length task)) in H.
    vm_compute in H. discriminate.
  - vm_compute. reflexivity.
  - vm_compute. reflexivity.
Qed.

Lemma second_chat_starts_independent_run_witness :
  events_of_run 0
    (@run_actions sample_py
       [Chat "c1" second_events; Advance 1; Advance 0; Advance 1; Advance 0]
       busy)
  = events_of_run 0 busy
    ++ @emitted_in sample_py
         (turns_of 0 [Chat "c1" second_events; Advance 1; Advance 0;
                      Advance 1; Advance 0])
         (Running None first_events).
Proof.
  apply (proj1 (proj2 (@second_chat_starts_independent_run sample_py))
           [Chat "c1" second_events; Advance 1; Advance 0; Advance 1; Advance 0]
           busy 0
           {| task_sid := "c1"; task_state := Running None first_events |}).
  vm_compute. reflexivity.
Defined.



Lemma db_save_follows_saver_exit_witness :
  exists pre' summary,
    [node_start "saver"; node_end "saver" "{...}"]
    = pre' ++ [node_end "saver" summary].
Proof.
  apply (proj1 (@db_save_follows_saver_exit sample_py)
           (Yield (chain_event "on_chain_start" "saver" [] None)
              (Yield (chain_event "on_chain_end" "saver" []
                        (Some (VDict [("saved_record",
                                       VDict [("id", VStr "r1")])])))
                 Stop))
           [node_start "saver"; node_end "saver" "{...}"]
           [done true]
           (VDict [("id", VStr "r1")])).
  vm_compute. reflexivity.
Defined.

Lemma token_content_nonempty_witness : "ok" <> EmptyString.
Proof.
  apply (proj1 (@token_content_nonempty sample_py)
           first_events (Some "generator") "ok").
  vm_compute. do 5 right. left. reflexivity.
Defined.

(** * Further properties of the code *)

(** ** Dictionaries *)

Lemma dict_get_set_same (d : dict) (k : string) (v : value) :
  dict_get (dict_set d k v) k = Some v.
Proof.
  induction d as [|[k' v'] d IH]; simpl.
  - now rewrite String.eqb_refl.
  - destruct (k' =? k) eqn:E; simpl; rewrite E; [reflexivity | assumption].
Qed.

Lemma dict_get_set_other (d : dict) (k k' : string) (v : value) :
  k <> k' -> dict_get (dict_set d k v) k' = dict_get d k'.
Proof.
  intro Hneq. induction d as [|[k0 v0] d IH]; simpl.
  - apply String.eqb_neq in Hneq. now rewrite Hneq.
  - destruct (k0 =? k) eqn:E; simpl.
    + apply String.eqb_eq in E. subst k0.
      apply String.eqb_neq in Hneq. now rewrite Hneq.
    + destruct (k0 =? k'); [reflexivity | assumption].
Qed.

Lemma dict_get_None_keys (d : dict) (k : string) :
  ~ In k (map fst d) -> dict_get d k = None.
Proof.
  induction d as [|[k' v'] d IH]; simpl; intro Hnot; [reflexivity|].
  destruct (k' =? k) eqn:E.
  - apply String.eqb_eq in E. exfalso. apply Hnot. now left.
  - apply IH. intro Hin. apply Hnot. now right.
Qed.

(** Writing the entries of [upd] over [d]: a key of [upd] reads as in [upd],
    any other key as in [d]. *)
Lemma dict_get_update (upd : dict) :
  forall (d : dict) (k : string),
    NoDup (map fst upd) ->
    dict_get (dict_update d upd) k =
    match dict_get upd k with
    | Some v => Some v
    | None => dict_get d k
    end.
Proof.
  unfold dict_update.
  induction upd as [|[k0 v0] upd IH]; intros d k Hnodup; simpl;
    [reflexivity|].
  inversion Hnodup as [|? ? Hfresh Hrest]; subst.
  rewrite (IH _ k Hrest).
  destruct (k0 =? k) eqn:E.
  - apply String.eqb_eq in E. subst k0.
    rewrite (dict_get_None_keys upd k Hfresh). apply dict_get_set_same.
  - apply String.eqb_neq in E.
    destruct (dict_get upd k); [reflexivity|].
    now apply dict_get_set_other.
Qed.

(** ** The store *)

(** X1.  In the record [save] builds, every field of the payload reads as in
    the payload - also [id] and [created_at], which a payload that has them
    overrides; a payload without them gets the identifier and the time drawn
    in the call; and the record has no other fields. *)
Theorem save_payload_wins (uuid now : string) (db : MockDatabase)
    (data : dict) :
  NoDup (map fst data) ->
  let record := fst (save uuid now db data) in
  (forall k v, dict_get data k = Some v -> dict_get record k = Some v)
  /\ (dict_get data "id" = None -> dict_get record "id" = Some (VStr uuid))
  /\ (dict_get data "created_at" = None ->
      dict_get record "created_at" = Some (VStr now))
  /\ (forall k, dict_get record k <> None ->
        k = "id" \/ k = "created_at" \/ dict_get data k <> None).
Proof.
  intros Hnodup record. subst record. unfold save. simpl fst.
  repeat split.
  - intros k v Hk. rewrite dict_get_update by assumption. now rewrite Hk.
  - intro Hid. rewrite dict_get_update by assumption. now rewrite Hid.
  - intro Hat. rewrite dict_get_update by assumption. now rewrite Hat.
  - intros k Hk. rewrite dict_get_update in Hk by assumption.
    destruct (dict_get data k) as [v|]; [right; right; discriminate|].
    cbn [dict_get] in Hk.
    destruct ("id" =? k) eqn:E1; [left; symmetry; now apply String.eqb_eq|].
    destruct ("created_at" =? k) eqn:E2;
      [right; left; symmetry; now apply String.eqb_eq|].
    rewrite ?E1, ?E2 in Hk. contradiction.
Qed.

Lemma save_payload_wins_witness :
  let data := [("id", VStr "mine"); ("user_input", VStr "hello")] in
  let record := fst (save "drawn" "2025-01-01T09:00:00" empty_db data) in
  (forall k v, dict_get data k = Some v -> dict_get record k = Some v)
  /\ (dict_get data "id" = None -> dict_get record "id" = Some (VStr "drawn"))
  /\ (dict_get data "created_at" = None ->
      dict_get record "created_at" = Some (VStr "2025-01-01T09:00:00"))
  /\ (forall k, dict_get record k <> None ->
        k = "id" \/ k = "created_at" \/ dict_get data k <> None).
Proof.
  apply (save_payload_wins "drawn" "2025-01-01T09:00:00" empty_db
           [("id", VStr "mine"); ("user_input", VStr "hello")]).
  repeat constructor; simpl; intuition discriminate.
Defined.

(** X2.  The store only grows: after any number of calls of [save],
    [get_all] returns what it returned before followed by the records the
    calls returned, in the order of the calls. *)
Theorem save_many_appends (calls : list (string * string * dict)) :
  forall db : MockDatabase,
    get_all (snd (save_many calls db))
    = get_all db ++ fst (save_many calls db).
Proof.
  induction calls as [|[[uuid now] data] calls IH]; intro db; simpl.
  - now rewrite app_nil_r.
  - specialize (IH {| records := records db
                       ++ [dict_update [("id", VStr uuid);
                                        ("created_at", VStr now)] data] |}).
    destruct (save_many calls _) as [later db2]. simpl in *.
    rewrite IH. unfold get_all. simpl. now rewrite <- app_assoc.
Qed.

(** ** The nodes, on a state that lacks a field *)

(** X3.  [saver_node] raises [KeyError] for the first of [user_input],
    [analysis], [response] that the state lacks, and then stores nothing:
    [save] is reached only when all three are there. *)
Theorem saver_node_missing_field (w : World) (db : MockDatabase)
    (state : dict) :
  (dict_get state "user_input" = None ->
   saver_node w db state = ([], Raise (KeyError "user_input")))
  /\ (dict_get state "user_input" <> None ->
      dict_get state "analysis" = None ->
      saver_node w db state = ([], Raise (KeyError "analysis")))
  /\ (dict_get state "user_input" <> None ->
      dict_get state "analysis" <> None ->
      dict_get state "response" = None ->
      saver_node w db state = ([], Raise (KeyError "response")))
  /\ (forall update db',
         snd (saver_node w db state) = Ok (update, db') ->
         dict_get state "user_input" <> None
         /\ dict_get state "analysis" <> None
         /\ dict_get state "response" <> None
         /\ List.length (records db') = S (List.length (records db))).
Proof.
  unfold saver_node, state_get. simpl.
  destruct (dict_get state "user_input") as [ui|]; simpl;
    [|repeat split; intros; try congruence; try discriminate].
  destruct (dict_get state "analysis") as [an|]; simpl;
    [|repeat split; intros; try congruence; try discriminate].
  destruct (dict_get state "response") as [rs|]; simpl;
    [|repeat split; intros; try congruence; try discriminate].
  repeat split; intros; try congruence; try discriminate.
  injection H as _ <-. simpl. rewrite length_app. simpl. lia.
Qed.

Lemma saver_node_missing_field_witness :
  saver_node sample_world empty_db [("user_input", VStr "hello")]
  = ([], Raise (KeyError "analysis")).
Proof.
  apply (proj1 (proj2 (saver_node_missing_field sample_world empty_db
                         [("user_input", VStr "hello")])));
    vm_compute; [discriminate | reflexivity].
Defined.

Section NodesOnPartialState.
Context {py : Interpreter}.

(** X4.  The two model stages read the state before they build the prompt:
    on a state without [user_input] both raise [KeyError] for it, and the
    generator raises it for [analysis] when only that is missing; in each
    case the model is not called, whatever it would have answered. *)
Theorem model_nodes_missing_field (w : World) (state : dict) :
  (dict_get state "user_input" = None ->
   analyzer_node w state = ([], Raise (KeyError "user_input"))
   /\ generator_node w state = ([], Raise (KeyError "user_input")))
  /\ (dict_get state "user_input" <> None ->
      dict_get state "analysis" = None ->
      generator_node w state = ([], Raise (KeyError "analysis"))).
Proof.
  unfold analyzer_node, generator_node, state_get. simpl. split.
  - intro Hui. rewrite Hui. simpl. split; reflexivity.
  - intros Hui Han.
    destruct (dict_get state "user_input") as [ui|]; [|congruence].
    simpl. rewrite Han. reflexivity.
Qed.

End NodesOnPartialState.

Lemma model_nodes_missing_field_witness :
  @generator_node sample_py sample_world [("user_input", VStr "hello")]
  = ([], Raise (KeyError "analysis")).
Proof.
  apply (proj2 (@model_nodes_missing_field sample_py sample_world
                  [("user_input", VStr "hello")]));
    vm_compute; [discriminate | reflexivity].
Defined.

(** ** The handler on any sequence of events *)

Lemma slice_to_prefix (n : nat) (s : string) : prefix (slice_to n s) s = true.
Proof.
  unfold slice_to. revert s.
  induction n as [|n IH]; intros [|c s]; simpl; try reflexivity.
  destruct (ascii_dec c c) as [_|Hneq]; [apply IH | congruence].
Qed.

Lemma slice_to_length_min (n : nat) (s : string) :
  String.length (slice_to n s) = Nat.min n (String.length s).
Proof.
  unfold slice_to. revert s.
  induction n as [|n IH]; intros [|c s]; simpl; try reflexivity.
  now rewrite IH.
Qed.

Lemma last_started_from_app (l1 l2 : list emission) (cur : option string) :
  last_started_from cur (l1 ++ l2)
  = last_started_from (last_started_from cur l1) l2.
Proof. unfold last_started_from. apply fold_left_app. Qed.

Lemma names_last_start_app (l1 : list emission) :
  forall (l2 : list emission) (cur : option string),
    names_last_start cur (l1 ++ l2)
    = names_last_start cur l1
      && names_last_start (last_started_from cur l1) l2.
Proof.
  induction l1 as [|e l1 IH]; intros l2 cur; simpl; [reflexivity|].
  rewrite IH, andb_assoc. reflexivity.
Qed.

Lemma names_last_start_token (pre : list emission) :
  forall (cur n : option string) (c : string) (post : list emission),
    names_last_start cur (pre ++ token n c :: post) = true ->
    n = last_started_from cur pre.
Proof.
  intros cur n c post H. rewrite names_last_start_app in H.
  apply andb_prop in H. destruct H as [_ H]. simpl in H.
  apply andb_prop in H. destruct H as [H _].
  destruct n as [x|], (last_started_from cur pre) as [y|]; simpl in H;
    try discriminate; [|reflexivity].
  apply String.eqb_eq in H. now subst.
Qed.

Lemma last_started_from_In (l : list emission) :
  forall (cur : option string) (m : string),
    last_started_from cur l = Some m ->
    cur = Some m \/ In (node_start m) l.
Proof.
  induction l as [|e l IH]; intros cur m H; simpl in *; [now left|].
  apply IH in H. destruct H as [H | H]; [|right; now right].
  destruct e; try (now left). injection H as ->. right. now left.
Qed.

Lemma same_name_refl (n : option string) : same_name n n = true.
Proof. destruct n; simpl; [apply String.eqb_refl | reflexivity]. Qed.

Section Handler.
Context {py : Interpreter}.

(** What an iteration emits names the current node in its token and leaves
    as current node the one started last. *)
Lemma on_event_names_last_start (cur : option string) (ev : StreamEvent) :
  names_last_start cur (fst (on_event cur ev)) = true
  /\ forall cur', snd (on_event cur ev) = Ok cur' ->
       cur' = last_started_from cur (fst (on_event cur ev)).
Proof.
  destruct (on_event_iteration cur ev); simpl;
    rewrite ?same_name_refl; split; try reflexivity;
    intros cur' Heq; try discriminate; now injection Heq as <-.
Qed.

Lemma chat_loop_names_last_start (s : stream) :
  forall cur, names_last_start cur (fst (chat_loop cur s)) = true.
Proof.
  induction s as [| e | ev rest IH]; intro cur; simpl; try reflexivity.
  destruct (on_event_names_last_start cur ev) as [Hout Hcur].
  destruct (on_event cur ev) as [out [cur'|e]]; simpl in *.
  - pose proof (Hcur cur' eq_refl) as Hc. specialize (IH cur').
    destruct (chat_loop cur' rest) as [out' r]; simpl in *.
    rewrite names_last_start_app, Hout. simpl. rewrite <- Hc. exact IH.
  - assumption.
Qed.

(** X5.  Whatever the graph yields, a [token] carries the name of the last
    [node_start] emitted before it - also when that stage has exited since -
    and no name when there is none; a name it carries is one of
    [NODE_NAMES]. *)
Theorem token_names_last_started (s : stream) (pre post : list emission)
    (n : option string) (c : string) :
  chat_body s = pre ++ token n c :: post ->
  n = last_started pre
  /\ forall m, n = Some m -> In m NODE_NAMES.
Proof.
  intro Hsplit.
  assert (Hn : n = last_started pre).
  { apply names_last_start_token with (c := c) (post := post).
    rewrite <- Hsplit. unfold chat_body.
    pose proof (chat_loop_names_last_start s None) as H.
    destruct (chat_loop None s) as [out [u|e]]; simpl in H;
      rewrite names_last_start_app, H; reflexivity. }
  split; [assumption|]. intros m Hm.
  rewrite Hm in Hn. symmetry in Hn.
  apply last_started_from_In in Hn. destruct Hn as [Hn | Hn]; [discriminate|].
  assert (Hall : Forall (fun e => match e with
                                  | node_start x => In x NODE_NAMES
                                  | _ => True
                                  end) (chat_body s)).
  { apply chat_body_Forall; simpl; auto.
    by_iteration. subst. now apply in_NODE_NAMES_In. }
  rewrite Forall_forall in Hall.
  apply (Hall (node_start m)). rewrite Hsplit. apply in_or_app. now left.
Qed.

(** X6.  The [output] of a [node_end] is an initial part of [str] of the
    output that an exit event of that stage carries in its [data], of length
    the smaller of 500 and the length of that text: a text of at most 500
    characters is forwarded whole. *)
Theorem node_end_summary_is_prefix (s : stream) (n summary : string) :
  In (node_end n summary) (chat_body s) ->
  exists (ev : StreamEvent) (out : value),
    In ev (yielded s)
    /\ event ev = "on_chain_end"
    /\ name ev = Some n
    /\ match data ev with
       | Some d =>
           match output d with Some v => out = v | None => out = VDict [] end
       | None => out = VDict []
       end
    /\ prefix summary (py_str out) = true
    /\ String.length summary = Nat.min 500 (String.length (py_str out))
    /\ (String.length (py_str out) <= 500 -> summary = py_str out).
Proof.
  intro Hin.
  assert (Hfull : forall t, String.length t <= 500 -> slice_to 500 t = t).
  { intros t Ht. unfold slice_to.
    assert (G : forall k u, String.length u <= k -> substring 0 k u = u).
    { induction k as [|k IHk]; intros [|a u] Hu; simpl in *;
        try reflexivity; try lia.
      rewrite IHk by lia. reflexivity. }
    now apply G. }
  destruct (node_end_origin s n summary Hin)
    as [ev [out [Hev [Hkind [Hname [Hout ->]]]]]].
  exists ev, out.
  split; [assumption|]. split; [assumption|]. split; [assumption|].
  split; [assumption|].
  split; [apply slice_to_prefix|].
  split; [apply slice_to_length_min | apply Hfull].
Qed.

End Handler.

Lemma token_names_last_started_witness :
  Some "analyzer"
  = last_started [node_start "analyzer"; node_end "analyzer" "{...}"]
  /\ forall m, Some "analyzer" = Some m -> In m NODE_NAMES.
Proof.
  apply (@token_names_last_started sample_py
           (Yield (chain_event "on_chain_start" "analyzer" [] None)
              (Yield (chain_event "on_chain_end" "analyzer" [] None)
                 (Yield (fragment_event "late") Stop)))
           [node_start "analyzer"; node_end "analyzer" "{...}"]
           [done true] (Some "analyzer") "late").
  vm_compute. reflexivity.
Defined.

Lemma node_end_summary_is_prefix_witness :
  String.length (@py_str plain_py long_output) = 616
  /\ exists (ev : StreamEvent) (out : value),
       In ev (yielded long_exit)
       /\ event ev = "on_chain_end"
       /\ name ev = Some "analyzer"
       /\ match data ev with
          | Some d =>
              match output d with Some v => out = v | None => out = VDict [] end
          | None => out = VDict []
          end
       /\ prefix long_summary (@py_str plain_py out) = true
       /\ String.length long_summary
          = Nat.min 500 (String.length (@py_str plain_py out))
       /\ (String.length (@py_str plain_py out) <= 500 ->
           long_summary = @py_str plain_py out).
Proof.
  split; [vm_compute; reflexivity|].
  apply (@node_end_summary_is_prefix plain_py long_exit "analyzer"
           long_summary).
  vm_compute. right. left. reflexivity.
Defined.

Section HandlerOnStreams.
Context {py : Interpreter}.

Lemma on_event_not_forwarded (cur : option string) (ev : StreamEvent) :
  forwarded ev = false -> on_event cur ev = ([], Ok cur).
Proof.
  unfold forwarded, on_event.
  destruct (event ev =? "on_chain_start");
    [intros ->; reflexivity|].
  destruct (event ev =? "on_chain_end");
    [intros ->; reflexivity|].
  destruct (event ev =? "on_chat_model_stream"); [|reflexivity].
  destruct (get_chunk ev) as [c|]; [|reflexivity].
  intros ->. reflexivity.
Qed.

(** X7.  Events for which [chat] has no emitting branch - another kind, a
    boundary event of a name outside [NODE_NAMES], a model chunk that is
    absent or empty - can be dropped from the sequence, wherever they stand,
    without changing what the client receives. *)
Theorem unforwarded_events_are_invisible (s : stream) :
  chat_body (stream_filter forwarded s) = chat_body s.
Proof.
  unfold chat_body.
  assert (H : forall cur,
             chat_loop cur (stream_filter forwarded s) = chat_loop cur s).
  { induction s as [| e | ev rest IH]; intro cur; simpl; try reflexivity.
    destruct (forwarded ev) eqn:Hf; simpl.
    - destruct (on_event cur ev) as [out [cur'|e]]; simpl; [|reflexivity].
      now rewrite IH.
    - rewrite (on_event_not_forwarded cur ev Hf). simpl.
      rewrite IH. now destruct (chat_loop cur rest). }
  now rewrite H.
Qed.

(** X8.  What is emitted for the events handled so far does not depend on
    what the graph does next: the events emitted for a sequence that goes on
    begin with those emitted for the sequence cut at that point. *)
Theorem emitted_so_far_is_kept (evs : list StreamEvent) :
  forall (cur : option string) (rest : stream),
  exists later,
    fst (chat_loop cur (yield_all evs rest))
    = fst (chat_loop cur (yield_all evs Stop)) ++ later.
Proof.
  induction evs as [|ev evs IH]; intros cur rest; simpl.
  - now exists (fst (chat_loop cur rest)).
  - destruct (on_event cur ev) as [out [cur'|e]]; simpl.
    + destruct (IH cur' rest) as [later Hlater].
      destruct (chat_loop cur' (yield_all evs rest)) as [o1 r1].
      destruct (chat_loop cur' (yield_all evs Stop)) as [o2 r2].
      simpl in *. exists later. now rewrite Hlater, app_assoc.
    + exists []. now rewrite app_nil_r.
Qed.

(** X9.  The exit of the saver is the one event on which the loop body
    itself can raise.  If its output holds a [saved_record] without an [id],
    reading the [id] for the log line raises [KeyError]; if its output is
    [None], a boolean or a number, the test for [saved_record] raises
    [TypeError].  Either way the client receives [node_end] and then [error],
    no [db_save], and nothing of what the graph yields afterwards. *)
Theorem saver_exit_can_end_the_run (ev : StreamEvent) (rest : stream) :
  event ev = "on_chain_end" -> get_name ev = "saver" ->
  (forall out saved,
      get_output ev = VDict out ->
      dict_get out "saved_record" = Some (VDict saved) ->
      dict_get saved "id" = None ->
      chat_body (Yield ev rest)
      = [node_end "saver" (slice_to 500 (py_str (VDict out)));
         error (exc_str (KeyError "id"))])
  /\ (forall out,
         get_output ev = out ->
         (out = VNone \/ (exists b, out = VBool b) \/ (exists z, out = VInt z)) ->
         chat_body (Yield ev rest)
         = [node_end "saver" (slice_to 500 (py_str out));
            error (exc_str (TypeError "in" out))]).
Proof.
  intros Hkind Hname. split.
  - intros out saved Hout Hsaved Hid.
    unfold chat_body. simpl. unfold on_event.
    rewrite Hkind, Hname, Hout. simpl.
    unfold dict_has. rewrite Hsaved. simpl. rewrite Hid. reflexivity.
  - intros out Hout Hshape.
    unfold chat_body. simpl. unfold on_event.
    rewrite Hkind, Hname, Hout. simpl.
    destruct Hshape as [-> | [[b ->] | [z ->]]]; reflexivity.
Qed.

Lemma on_event_length (cur : option string) (ev : StreamEvent) :
  List.length (fst (on_event cur ev)) <= 2.
Proof. destruct (on_event_iteration cur ev); simpl; lia. Qed.

(** X10.  The handler emits at most two events for each event of the graph
    and one more at the end. *)
Theorem emitted_length_bound (s : stream) :
  List.length (chat_body s) <= 2 * stream_length s + 1.
Proof.
  assert (H : forall cur,
             List.length (fst (chat_loop cur s)) <= 2 * stream_length s).
  { induction s as [| e | ev rest IH]; intro cur; simpl; try lia.
    pose proof (on_event_length cur ev) as Hev.
    destruct (on_event cur ev) as [out [cur'|e]]; simpl in *; [|lia].
    specialize (IH cur').
    destruct (chat_loop cur' rest) as [out' r]; simpl in *.
    rewrite length_app. lia. }
  unfold chat_body. specialize (H None).
  destruct (chat_loop None s) as [out [u|e]]; simpl in H;
    rewrite length_app; simpl; lia.
Qed.

Lemma on_event_raises_on_saver_exit (cur : option string) (ev : StreamEvent)
    (e : exception) :
  snd (on_event cur ev) = Raise e -> is_saver_exit ev = true.
Proof.
  unfold is_saver_exit.
  destruct (on_event_iteration cur ev) as [| | | ? Hk Hn | |]; simpl;
    intro Hraise; try discriminate.
  now rewrite Hk, Hn.
Qed.

(** X11.  A sequence that ends by raising is never reported as [done]: the
    last event is [error].  A sequence that ends normally and has no exit of
    the saver is always reported as [done]. *)
Theorem graph_exception_is_reported (s : stream) :
  (ends_raising s = true ->
   exists pre message, chat_body s = pre ++ [error message])
  /\ (ends_raising s = false ->
      forallb (fun ev => negb (is_saver_exit ev)) (yielded s) = true ->
      exists pre, chat_body s = pre ++ [done true]).
Proof.
  unfold chat_body. split.
  - intro Hend.
    assert (H : forall cur, exists e, snd (chat_loop cur s) = Raise e).
    { induction s as [| e | ev rest IH]; intro cur; simpl in *;
        try discriminate.
      - now exists e.
      - destruct (on_event cur ev) as [out [cur'|e]]; simpl.
        + destruct (IH Hend cur') as [e He].
          destruct (chat_loop cur' rest) as [out' r]; simpl in *.
          now exists e.
        + now exists e. }
    destruct (H None) as [e He].
    destruct (chat_loop None s) as [out r]; simpl in He; subst r.
    now exists out, (exc_str e).
  - intros Hend Hnone.
    assert (H : forall cur, snd (chat_loop cur s) = Ok tt).
    { induction s as [| e | ev rest IH]; intro cur; simpl in *;
        try discriminate; try reflexivity.
      apply andb_prop in Hnone. destruct Hnone as [Hev Hrest].
      pose proof (on_event_raises_on_saver_exit cur ev) as Hraise.
      destruct (on_event cur ev) as [out [cur'|e]]; simpl in *.
      - specialize (IH Hend Hrest cur').
        now destruct (chat_loop cur' rest) as [out' r].
      - rewrite (Hraise e eq_refl) in Hev. discriminate. }
    specialize (H None).
    destruct (chat_loop None s) as [out r]; simpl in H; subst r.
    now exists out.
Qed.

End HandlerOnStreams.

Lemma saver_exit_can_end_the_run_witness :
  @chat_body sample_py
    (Yield (chain_event "on_chain_end" "saver" []
              (Some (VDict [("saved_record", VDict [("name", VStr "r1")])])))
       first_events)
  = [node_end "saver"
       (slice_to 500
          (@py_str sample_py
             (VDict [("saved_record", VDict [("name", VStr "r1")])])));
     error (@exc_str sample_py (KeyError "id"))].
Proof.
  apply (proj1 (@saver_exit_can_end_the_run sample_py
                  (chain_event "on_chain_end" "saver" []
                     (Some (VDict [("saved_record",
                                    VDict [("name", VStr "r1")])])))
                  first_events eq_refl eq_refl)
           [("saved_record", VDict [("name", VStr "r1")])]
           [("name", VStr "r1")]);
    vm_compute; reflexivity.
Defined.

Lemma graph_exception_is_reported_witness :
  exists pre message,
    @chat_body sample_py second_events = pre ++ [error message].
Proof.
  apply (proj1 (@graph_exception_is_reported sample_py second_events)).
  vm_compute. reflexivity.
Defined.

(** ** The server *)

Lemma update_nth_length {A : Type} (l : list A) :
  forall (i : nat) (x : A), List.length (update_nth i x l) = List.length l.
Proof.
  induction l as [|a l IH]; intros [|i] x; simpl; try reflexivity.
  now rewrite IH.
Qed.

Section ServerInvariants.
Context {py : Interpreter}.

Lemma react_routed (srv : server) (a : action) :
  routed srv -> routed (react srv a).
Proof.
  intros Hr. destruct a as [sid | sid | sid s | i]; simpl.
  - intros d Hin. simpl in Hin. apply in_app_or in Hin.
    destruct Hin as [Hin | [<- | []]]; [now apply Hr | reflexivity].
  - assumption.
  - intros d Hin. simpl in Hin. specialize (Hr d Hin).
    destruct (run d) as [j|]; [|assumption].
    destruct Hr as [t [Ht Hsid]]. exists t. split; [|assumption].
    simpl. rewrite nth_error_app1; [assumption|].
    apply nth_error_Some. congruence.
  - destruct (nth_error (tasks srv) i) as [t|] eqn:Hi; [|assumption].
    destruct (advance (task_state t)) as [out h']. intros d Hin. simpl in Hin.
    apply in_app_or in Hin. destruct Hin as [Hin | Hin].
    + specialize (Hr d Hin). destruct (run d) as [j|]; [|assumption].
      destruct Hr as [tj [Hj Hsid]]. simpl.
      destruct (Nat.eq_dec j i) as [-> | Hneq].
      * rewrite Hi in Hj. injection Hj as <-.
        exists {| task_sid := task_sid t; task_state := h' |}.
        split; [|assumption].
        now apply nth_error_update_nth_same with (y := t).
      * exists tj. split; [|assumption].
        now rewrite nth_error_update_nth_other.
    + apply in_map_iff in Hin. destruct Hin as [e [<- _]]. simpl.
      exists {| task_sid := task_sid t; task_state := h' |}.
      split; [|reflexivity].
      now apply nth_error_update_nth_same with (y := t).
Qed.

(** X12.  Whatever arrives and however the handlers take turns, every event
    a handler emits is delivered to the session whose message started it,
    and a greeting to the session that connected: nothing is broadcast or
    sent to another session. *)
Theorem deliveries_stay_in_session (acts : list action) :
  forall srv : server, routed srv -> routed (run_actions acts srv).
Proof.
  induction acts as [|a acts IH]; intros srv Hr; simpl; [assumption|].
  apply IH. now apply react_routed.
Qed.

(** X14.  Every [chat] message starts one handler and no handler is ever
    removed: the number of handlers is the number there was plus the number
    of messages received. *)
Theorem one_handler_per_message (acts : list action) :
  forall srv : server,
    List.length (tasks (run_actions acts srv))
    = List.length (tasks srv) + List.length (filter is_chat acts).
Proof.
  induction acts as [|a acts IH]; intro srv; simpl; [lia|].
  rewrite IH. destruct a as [sid | sid | sid s | i]; simpl; try lia.
  - rewrite length_app. simpl. lia.
  - destruct (nth_error (tasks srv) i) as [t|]; [|lia].
    destruct (advance (task_state t)) as [out h']. simpl.
    rewrite update_nth_length. lia.
Qed.

(** ** The workflow *)

(** X15.  The names the handler tracks are exactly the nodes added to the
    workflow, and following the edges from [START] passes through each of
    them once, in the order of [NODE_NAMES], before [END]. *)
Theorem tracked_names_are_the_nodes :
  (forall n, In n NODE_NAMES <-> node_of workflow n <> None)
  /\ downstream recursion_limit workflow START = NODE_NAMES
  /\ NoDup NODE_NAMES.
Proof.
  split; [|split].
  - intro n. split.
    + intros [<- | [<- | [<- | []]]]; vm_compute; discriminate.
    + unfold node_of, workflow. cbn [nodes find fst snd option_map].
      destruct (String.eqb_spec "analyzer" n) as [<- | _]; [simpl; tauto|].
      destruct (String.eqb_spec "generator" n) as [<- | _]; [simpl; tauto|].
      destruct (String.eqb_spec "saver" n) as [<- | _]; [simpl; tauto|].
      intro H. now contradiction H.
  - reflexivity.
  - repeat constructor; simpl; intuition discriminate.
Qed.

End ServerInvariants.

Lemma deliveries_stay_in_session_witness :
  routed
    (@run_actions sample_py
       [Connect "c1"; Chat "c1" first_events; Connect "c2";
        Chat "c2" second_events; Advance 1; Advance 0; Advance 1]
       idle).
Proof.
  apply (@deliveries_stay_in_session sample_py).
  intros d [].
Defined.
